(** * awg-manager: peer lifecycle, address allocation and one-time links

    A shallow embedding of [server/src/cmd/awg-manager/main.go].

    - Go strings are [string] (byte strings), [int] is a 64-bit integer
      carried in [Z] with the wrap-around written out, [time.Time] is an
      instant in nanoseconds carried in [Z].
    - The three JSON snapshot files and the rendered interface file are
      fields of [World]; every handler is a function
      [App -> Env -> request -> World -> Response * World], which is what
      the handler does while it holds [a.mu].
    - Whatever the process obtains from outside during one request (wall
      clock, random bytes, key generation, outcome of [os.WriteFile] and of
      the [awg setconf] command) is read from [Env].
    - [os.WriteFile] opens its file with [O_TRUNC] before it writes: a
      call that fails may leave the file as it was, cut short, or
      complete; see [leftover] and [WriteFile]. *)

From Stdlib Require Import ZArith Ascii String List Bool Lia.
From stdpp Require Import base option list strings pretty.

Local Open Scope string_scope.
Local Open Scope Z_scope.
Local Open Scope list_scope.

(** ** Machine integers *)

(** Go [int] / [int64] arithmetic wraps modulo 2^64 (two's complement). *)
Definition wrap64 (z : Z) : Z := (z + 2 ^ 63) mod 2 ^ 64 - 2 ^ 63.

(** [byte(n)] for an [int] n. *)
Definition byte_of_int (n : Z) : Z := n mod 256.

(** ** The parts of package [strings] the handlers use *)

Module strings.

Definition bytes (l : list nat) : string :=
  fold_right (fun n s => String (ascii_of_nat n) s) "" l.

Fixpoint stripPrefix (prefix s : string) : option string :=
  match prefix with
  | "" => Some s
  | String c p =>
      match s with
      | String d s' => if Ascii.eqb c d then stripPrefix p s' else None
      | "" => None
      end
  end.

(** [strings.TrimPrefix(s, prefix)] *)
Definition TrimPrefix (s prefix : string) : string :=
  default s (stripPrefix prefix s).

(** UTF-8 encodings of the runes for which [unicode.IsSpace] holds. *)
Definition whiteSpace : list string :=
  map bytes
    [ [9]; [10]; [11]; [12]; [13]; [32]; [194; 133]; [194; 160];
      [225; 154; 128];
      [226; 128; 128]; [226; 128; 129]; [226; 128; 130]; [226; 128; 131];
      [226; 128; 132]; [226; 128; 133]; [226; 128; 134]; [226; 128; 135];
      [226; 128; 136]; [226; 128; 137]; [226; 128; 138];
      [226; 128; 168]; [226; 128; 169]; [226; 128; 175];
      [226; 129; 159]; [227; 128; 128] ]%nat.

Fixpoint stripAny (ps : list string) (s : string) : option string :=
  match ps with
  | [] => None
  | p :: ps' =>
      match stripPrefix p s with
      | Some s' => Some s'
      | None => stripAny ps' s
      end
  end.

Fixpoint trimLeft (ps : list string) (fuel : nat) (s : string) : string :=
  match fuel with
  | O => s
  | S fuel' =>
      match stripAny ps s with
      | Some s' => trimLeft ps fuel' s'
      | None => s
      end
  end.

(** [strings.TrimSpace(s)]: leading, then trailing white space. *)
Definition TrimSpace (s : string) : string :=
  let l := trimLeft whiteSpace (String.length s) s in
  String.rev
    (trimLeft (map String.rev whiteSpace) (String.length l) (String.rev l)).

(** [strings.Split(s, "/")[0]]: the text before the first slash. *)
Fixpoint beforeSlash (s : string) : string :=
  match s with
  | "" => ""
  | String c s' => if Ascii.eqb c "/" then "" else String c (beforeSlash s')
  end.

(** The text after the first slash, if there is one. *)
Fixpoint afterSlash (s : string) : option string :=
  match s with
  | "" => None
  | String c s' => if Ascii.eqb c "/" then Some s' else afterSlash s'
  end.

End strings.

(** ** The parts of package [net] the allocator uses

    Only dotted-decimal IPv4 text is parsed.  For an IPv6 literal the real
    [net.ParseCIDR] succeeds, but then either [To4] is nil or the mask is
    not 24 bits, so [allocateNextAddress] fails there as it does here. *)

Module net.

(** [type IP []byte], [type IPMask []byte] *)
Definition IP := list Z.
Definition IPMask := list Z.
Record IPNet := { ipnet_IP : IP; ipnet_Mask : IPMask }.

Definition v4InV6Prefix : list Z := [0; 0; 0; 0; 0; 0; 0; 0; 0; 0; 255; 255].

(** [net.IPv4(a, b, c, d)]: the 16-byte form. *)
Definition IPv4 (a b c d : Z) : IP := v4InV6Prefix ++ [a; b; c; d].

Definition bytes_eqb (x y : list Z) : bool := bool_decide (x = y).

(** [ip.To4()] *)
Definition To4 (ip : IP) : option IP :=
  if (length ip =? 4)%nat then Some ip
  else if (length ip =? 16)%nat && bytes_eqb (take 12 ip) v4InV6Prefix
       then Some (drop 12 ip)
       else None.

(** [ip.String()] for an address that has a 4-byte form; the other
    branches of the Go function print "<nil>", "?..." or IPv6 text. *)
Definition IPString (ip : IP) : string :=
  match To4 ip with
  | Some [a; b; c; d] =>
      pretty a +:+ "." +:+ pretty b +:+ "." +:+ pretty c +:+ "." +:+ pretty d
  | _ => if (length ip =? 0)%nat then "<nil>" else "?"
  end.

(** [net.CIDRMask(ones, 8*l)] *)
Fixpoint CIDRMask (n : Z) (l : nat) : IPMask :=
  match l with
  | O => []
  | S l' =>
      if 8 <=? n then 255 :: CIDRMask (n - 8) l'
      else (255 - Z.shiftr 255 n) :: CIDRMask 0 l'
  end.

(** leading one bits of a byte, and what is left after them *)
Fixpoint leadingOnes (fuel : nat) (v : Z) : Z * Z :=
  match fuel with
  | O => (0, v)
  | S fuel' =>
      if Z.testbit v 7
      then let '(n, r) := leadingOnes fuel' (Z.shiftl v 1 mod 256) in (n + 1, r)
      else (0, v)
  end.

Fixpoint simpleMaskLength (mask : IPMask) : Z :=
  match mask with
  | [] => 0
  | v :: rest =>
      if v =? 255 then
        let n := simpleMaskLength rest in if n <? 0 then -1 else 8 + n
      else
        let '(n, r) := leadingOnes 8 v in
        if negb (r =? 0) then -1
        else if forallb (Z.eqb 0) rest then n else -1
  end.

(** [mask.Size()] *)
Definition Size (mask : IPMask) : Z * Z :=
  let ones := simpleMaskLength mask in
  if ones =? -1 then (0, 0) else (ones, 8 * Z.of_nat (length mask)).

Definition digit (c : ascii) : option Z :=
  let n := Z.of_nat (nat_of_ascii c) in
  if (48 <=? n) && (n <=? 57) then Some (n - 48) else None.

(** [parseIPv4Fields]: [fields] holds the octets completed so far. *)
Fixpoint parseIPv4Fields (s : string) (first prevDot : bool)
    (val digLen : Z) (fields : list Z) : option (list Z) :=
  match s with
  | "" => if (length fields <? 3)%nat then None else Some (fields ++ [val])
  | String c s' =>
      match digit c with
      | Some d =>
          if (digLen =? 1) && (val =? 0) then None
          else
            let val' := val * 10 + d in
            if 255 <? val' then None
            else parseIPv4Fields s' false false val' (digLen + 1) fields
      | None =>
          if Ascii.eqb c "." then
            if first || bool_decide (s' = "") || prevDot then None
            else if (length fields =? 3)%nat then None
            else parseIPv4Fields s' false true 0 0 (fields ++ [val])
          else None
      end
  end.

(** [dtoi] followed by the check that the whole text was consumed. *)
Fixpoint dtoi (s : string) (n : Z) : option Z :=
  match s with
  | "" => Some n
  | String c s' =>
      match digit c with
      | Some d =>
          let n' := n * 10 + d in
          if 16777215 <=? n' then None else dtoi s' n'
      | None => None
      end
  end.

(** [ip.Mask(mask)] on byte lists of equal length *)
Definition Mask (ip : IP) (mask : IPMask) : IP :=
  zip_with Z.land ip mask.

(** [net.ParseCIDR(s)] on IPv4 text: the address and the network. *)
Definition ParseCIDR (s : string) : option (IP * IPNet) :=
  match strings.afterSlash s with
  | None => None
  | Some mask =>
      match parseIPv4Fields (strings.beforeSlash s) true false 0 0 [] with
      | Some [a; b; c; d] =>
          match (if bool_decide (mask = "") then None else dtoi mask 0) with
          | Some n =>
              if 32 <? n then None
              else
                let m := CIDRMask n 4 in
                Some (IPv4 a b c d,
                      {| ipnet_IP := Mask [a; b; c; d] m; ipnet_Mask := m |})
          | None => None
          end
      | _ => None
      end
  end.

End net.

(** ** Records (main.go, lines 24-69) *)

Definition time := Z.

(** [t.After(u)] *)
Definition After (t u : time) : bool := u <? t.

Record serverState := {
  ServerPrivateKey : string;
  ServerPublicKey : string;
  SubnetCIDR : string;
  ServerIP : string;
  NextHost : Z
}.

Record client := {
  ID : string;
  Name : string;
  PublicKey : string;
  PrivKey : string;
  Address : string;
  CreatedAt : time;
  ExpiresAt : option time
}.

Record clientPublic := {
  pub_ID : string;
  pub_Name : string;
  pub_PublicKey : string;
  pub_Address : string;
  pub_CreatedAt : time;
  pub_ExpiresAt : option time
}.

Definition toPublic (c : client) : clientPublic :=
  {| pub_ID := ID c;
     pub_Name := Name c;
     pub_PublicKey := PublicKey c;
     pub_Address := Address c;
     pub_CreatedAt := CreatedAt c;
     pub_ExpiresAt := ExpiresAt c |}.

Record dlToken := {
  Token : string;
  ClientID : string;
  tok_ExpiresAt : time;
  Used : bool
}.

Definition set_NextHost (n : Z) (st : serverState) : serverState :=
  {| ServerPrivateKey := ServerPrivateKey st;
     ServerPublicKey := ServerPublicKey st;
     SubnetCIDR := SubnetCIDR st;
     ServerIP := ServerIP st;
     NextHost := n |}.

Definition set_Used (b : bool) (t : dlToken) : dlToken :=
  {| Token := Token t;
     ClientID := ClientID t;
     tok_ExpiresAt := tok_ExpiresAt t;
     Used := b |}.

(** ** Address allocator (main.go, lines 377-411) *)

(** Go's [(string, error)] result, the error on the left.  The state is
    returned as well: the function writes through [st *serverState]. *)
Definition allocateNextAddress (st : serverState)
    : (string + string) * serverState :=
  match net.ParseCIDR (SubnetCIDR st) with
  | None => (inl ("invalid CIDR address: " +:+ SubnetCIDR st), st)
  | Some (_, ipnet) =>
      match net.To4 (net.ipnet_IP ipnet) with
      | Some [base0; base1; base2; _] =>
          let maskOnes := fst (net.Size (net.ipnet_Mask ipnet)) in
          if negb (maskOnes =? 24) then
            (inl ("subnet " +:+ SubnetCIDR st
                  +:+ ": only /24 supported by allocator currently"), st)
          else if (NextHost st <? 2) || (254 <? NextHost st) then
            (inl "address pool exhausted", st)
          else
            let cand := net.IPv4 base0 base1 base2 (byte_of_int (NextHost st)) in
            let '(cand, st) :=
              if String.eqb (net.IPString cand) (ServerIP st) then
                let st := set_NextHost (wrap64 (NextHost st + 1)) st in
                (net.IPv4 base0 base1 base2 (byte_of_int (NextHost st)), st)
              else (cand, st) in
            let addr := net.IPString cand +:+ "/32" in
            let st := set_NextHost (wrap64 (NextHost st + 1)) st in
            (inr addr, st)
      | _ => (inl "only IPv4 subnet supported", st)
      end
  end.

(** ** The process, its files and its surroundings *)

Definition nl : string := String (ascii_of_nat 10) "".

(** The fields of [app] that the handlers read (lines 71-81). *)
Record App := {
  dataDir : string;
  iface : string;
  port : Z;
  endpoint : string
}.

(** Go [error] values: the handlers only ask whether an error is
    [os.ErrNotExist], and print its text. *)
Inductive error := ErrNotExist (msg : string) | ErrOther (msg : string).

Definition Error (e : error) : string :=
  match e with ErrNotExist msg => msg | ErrOther msg => msg end.

Definition isNotExist (e : error) : bool :=
  match e with ErrNotExist _ => true | ErrOther _ => false end.

(** A JSON snapshot file: missing, present but not readable as the
    expected value, or holding a value (what [json.Unmarshal] gives back
    for what [json.MarshalIndent] wrote). *)
Inductive file (A : Type) :=
| Absent
| Unreadable (err : string)
| Stored (v : A).
Arguments Absent {A}.
Arguments Unreadable {A} err.
Arguments Stored {A} v.

Record World := {
  server_json : file serverState;
  clients_json : file (list client);
  tokens_json : file (list dlToken);
  iface_conf : option string;
  live_conf : option string;
  client_extra_interface_txt : option string;
  client_allowedips_txt : option string
}.

Inductive path := ServerJson | ClientsJson | TokensJson | IfaceConf.

(** What a call of [os.WriteFile] that returns an error leaves in the
    file.  The call opens the file with [O_WRONLY|O_CREATE|O_TRUNC],
    writes the data and closes the file:
    - [Intact]: the open failed; the file is as it was (missing, if it was
      missing);
    - [Cut n]: the file was opened, hence emptied, and the write stopped
      after [n] bytes, fewer than the data has;
    - [Complete]: all the data was written and the error came after that
      (from [Close]). *)
Inductive leftover := Intact | Cut (n : nat) | Complete.

(** What one request obtains from outside the process:
    - [Now k]: the reading of the k-th call of [time.Now()] in the handler;
    - [WriteFileErr p]: the error of [os.WriteFile] on [p], if it fails;
    - [WriteFileLeaves p]: what the file holds after such a failure (not
      looked at when the write succeeds);
    - [SetconfErr]: the error of running [awg setconf], if it fails;
    - [GeneratePrivateKey]: the error, or the private key and its public
      key, both in text form;
    - [RandID], [RandToken]: what [makeID()] and [randomToken(32)] return;
    - [ParseRFC3339 s]: [time.Parse(time.RFC3339, s)]. *)
Record Env := {
  Now : nat -> time;
  WriteFileErr : path -> option string;
  WriteFileLeaves : path -> leftover;
  SetconfErr : option string;
  GeneratePrivateKey : string + (string * string);
  RandID : string;
  RandToken : string;
  ParseRFC3339 : string -> string + time
}.

Definition set_server_json (v : file serverState) (w : World) : World :=
  {| server_json := v; clients_json := clients_json w;
     tokens_json := tokens_json w; iface_conf := iface_conf w;
     live_conf := live_conf w;
     client_extra_interface_txt := client_extra_interface_txt w;
     client_allowedips_txt := client_allowedips_txt w |}.

Definition set_clients_json (v : file (list client)) (w : World) : World :=
  {| server_json := server_json w; clients_json := v;
     tokens_json := tokens_json w; iface_conf := iface_conf w;
     live_conf := live_conf w;
     client_extra_interface_txt := client_extra_interface_txt w;
     client_allowedips_txt := client_allowedips_txt w |}.

Definition set_tokens_json (v : file (list dlToken)) (w : World) : World :=
  {| server_json := server_json w; clients_json := clients_json w;
     tokens_json := v; iface_conf := iface_conf w;
     live_conf := live_conf w;
     client_extra_interface_txt := client_extra_interface_txt w;
     client_allowedips_txt := client_allowedips_txt w |}.

Definition set_iface_conf (v : option string) (w : World) : World :=
  {| server_json := server_json w; clients_json := clients_json w;
     tokens_json := tokens_json w; iface_conf := v;
     live_conf := live_conf w;
     client_extra_interface_txt := client_extra_interface_txt w;
     client_allowedips_txt := client_allowedips_txt w |}.

Definition set_live_conf (v : option string) (w : World) : World :=
  {| server_json := server_json w; clients_json := clients_json w;
     tokens_json := tokens_json w; iface_conf := iface_conf w;
     live_conf := v;
     client_extra_interface_txt := client_extra_interface_txt w;
     client_allowedips_txt := client_allowedips_txt w |}.

(** [os.WriteFile(p, data, 0o600)].  [upd] puts the data into the file,
    [cut n] puts its first [n] bytes there. *)
Definition WriteFile (env : Env) (p : path) (upd : World -> World)
    (cut : nat -> World -> World) (w : World) : option string * World :=
  match WriteFileErr env p with
  | Some err =>
      (Some err,
       match WriteFileLeaves env p with
       | Intact => w
       | Cut n => cut n w
       | Complete => upd w
       end)
  | None => (None, upd w)
  end.

(** A snapshot file that holds only the beginning of the text that
    [json.MarshalIndent] produced (or nothing at all): [os.ReadFile]
    succeeds and [json.Unmarshal] fails on it. *)
Definition cutJSON {A : Type} : file A :=
  Unreadable "unexpected end of JSON input".

(** ** Snapshot files (lines 187-242) *)

Definition readServerState (w : World) : error + serverState :=
  match server_json w with
  | Absent => inl (ErrNotExist "open server.json: no such file or directory")
  | Unreadable err => inl (ErrOther err)
  | Stored st => inr st
  end.

Definition writeServerState (env : Env) (st : serverState) (w : World)
    : option string * World :=
  WriteFile env ServerJson (set_server_json (Stored st))
    (fun _ => set_server_json cutJSON) w.

Definition loadClients (w : World) : error + list client :=
  match clients_json w with
  | Absent => inr []
  | Unreadable err => inl (ErrOther err)
  | Stored cs => inr cs
  end.

Definition saveClients (env : Env) (cs : list client) (w : World)
    : option string * World :=
  WriteFile env ClientsJson (set_clients_json (Stored cs))
    (fun _ => set_clients_json cutJSON) w.

Definition loadTokens (w : World) : error + list dlToken :=
  match tokens_json w with
  | Absent => inr []
  | Unreadable err => inl (ErrOther err)
  | Stored ts => inr ts
  end.

Definition saveTokens (env : Env) (ts : list dlToken) (w : World)
    : option string * World :=
  WriteFile env TokensJson (set_tokens_json (Stored ts))
    (fun _ => set_tokens_json cutJSON) w.

(** ** HTTP responses

    A response is its status code and its body; the JSON bodies are kept
    as the values handed to the encoder (a link's [expiresAt] as the
    instant that is then formatted).  Response headers are left out. *)

Inductive Body :=
| Text (s : string)
| JSONClients (cs : list clientPublic)
| JSONClient (c : clientPublic)
| JSONLink (urlPath : string) (expiresAt : time)
| NoBody
| Panic.

Record Response := { Status : Z; Payload : Body }.

(** [http.Error(w, msg, code)] *)
Definition http_Error (msg : string) (code : Z) : Response :=
  {| Status := code; Payload := Text (msg +:+ nl) |}.

Definition StatusOK : Z := 200.
Definition StatusNoContent : Z := 204.
Definition StatusNotFound : Z := 404.
Definition StatusMethodNotAllowed : Z := 405.
Definition StatusGone : Z := 410.

(** What [json.NewDecoder(r.Body).Decode(&q)] makes of a request body,
    [q] starting from its zero value:
    - [Decoded q]: the first JSON value of the body was read and stored,
      no error; what follows that value in the body is not looked at;
    - [Undecodable err]: the body is empty, or its first JSON value is not
      well-formed; the decoder fails while reading the value and stores
      nothing;
    - [Mistyped err q]: the first JSON value is well-formed but does not
      fit the struct; the fields that fit were stored, an error is
      returned. *)
Inductive decoded (Q : Type) :=
| Decoded (q : Q)
| Undecodable (err : string)
| Mistyped (err : string) (q : Q).
Arguments Decoded {Q} q.
Arguments Undecodable {Q} err.
Arguments Mistyped {Q} err q.

(** [q] after the call, and the error returned. *)
Definition Decode {Q : Type} (zero : Q) (b : decoded Q) : Q * option string :=
  match b with
  | Decoded q => (q, None)
  | Undecodable err => (zero, Some err)
  | Mistyped err q => (q, Some err)
  end.

(** ** Gateway configuration (lines 454-481) *)

Definition expired (now : time) (c : client) : bool :=
  match ExpiresAt c with
  | Some e => After now e
  | None => false
  end.

(** The loop of [applyServerConfig] over [cs], appending to the builder. *)
Fixpoint writePeers (now : time) (cs : list client) (b : string) : string :=
  match cs with
  | [] => b
  | c :: cs' =>
      if expired now c then writePeers now cs' b
      else
        let b := b +:+ ("[Peer]" +:+ nl) in
        let b := b +:+ ("PublicKey = " +:+ PublicKey c +:+ nl) in
        let ipOnly := strings.beforeSlash (Address c) in
        let b := b +:+ ("AllowedIPs = " +:+ ipOnly +:+ "/32" +:+ nl) in
        let b := b +:+ nl in
        writePeers now cs' b
  end.

Definition renderServerConfig (a : App) (st : serverState) (cs : list client)
    (now : time) : string :=
  let b := "" in
  let b := b +:+ ("[Interface]" +:+ nl) in
  let b := b +:+ ("PrivateKey = " +:+ ServerPrivateKey st +:+ nl) in
  let b := b +:+ ("ListenPort = " +:+ pretty (port a) +:+ nl) in
  let b := b +:+ nl in
  writePeers now cs b.

(** [now] is the reading of [time.Now()] made inside the function. *)
Definition applyServerConfig (a : App) (env : Env) (now : time)
    (st : serverState) (cs : list client) (w : World) : option string * World :=
  let conf := renderServerConfig a st cs now in
  match WriteFile env IfaceConf (set_iface_conf (Some conf))
          (fun n => set_iface_conf (Some (String.substring 0 n conf))) w with
  | (Some err, w) => (Some err, w)
  | (None, w) =>
      match SetconfErr env with
      | Some err => (Some err, w)
      | None => (None, set_live_conf (Some conf) w)
      end
  end.

(** ** Client configuration (lines 636-682) *)

Fixpoint findClient (cs : list client) (id : string) : option client :=
  match cs with
  | [] => None
  | c :: cs' => if String.eqb (ID c) id then Some c else findClient cs' id
  end.

Definition findClientAndState (w : World) (id : string)
    : error + (client * serverState) :=
  match readServerState w with
  | inl err => inl err
  | inr st =>
      match loadClients w with
      | inl err => inl err
      | inr cs =>
          match findClient cs id with
          | Some c => inr (c, st)
          | None => inl (ErrNotExist "file does not exist")
          end
      end
  end.

Definition renderClientConfig (a : App) (w : World) (c : client)
    (st : serverState) : string :=
  let b := "" in
  let b := b +:+ ("[Interface]" +:+ nl) in
  let b := b +:+ ("PrivateKey = " +:+ PrivKey c +:+ nl) in
  let b := b +:+ ("Address = " +:+ Address c +:+ nl) in
  let b :=
    match client_extra_interface_txt w with
    | Some bb =>
        let x := strings.TrimSpace bb in
        if negb (String.eqb x "") then b +:+ (x +:+ nl) else b
    | None => b
    end in
  let b := b +:+ (nl +:+ "[Peer]" +:+ nl) in
  let b := b +:+ ("PublicKey = " +:+ ServerPublicKey st +:+ nl) in
  let b :=
    if negb (String.eqb (endpoint a) "")
    then b +:+ ("Endpoint = " +:+ endpoint a +:+ nl) else b in
  let allowed := "0.0.0.0/0, ::/0" in
  let allowed :=
    match client_allowedips_txt w with
    | Some bb =>
        let x := strings.TrimSpace bb in
        if negb (String.eqb x "") then x else allowed
    | None => allowed
    end in
  b +:+ ("AllowedIPs = " +:+ allowed +:+ nl).

(** ** Listing and creating clients (lines 244-375) *)

(** The loop of [handleClients]: [out = append(out, toPublic(c))]. *)
Fixpoint publicViews (cs : list client) (out : list clientPublic)
    : list clientPublic :=
  match cs with
  | [] => out
  | c :: cs' => publicViews cs' (out ++ [toPublic c])
  end.

Definition listClients (w : World) : Response * World :=
  match loadClients w with
  | inl err => (http_Error (Error err) 500, w)
  | inr cs =>
      let out := publicViews cs [] in
      ({| Status := StatusOK; Payload := JSONClients out |}, w)
  end.

Record createReq := { req_Name : string; req_ExpiresAt : option string }.

(** Lines 311-319: the optional [expiresAt] of the request. *)
Definition requestedExpiry (env : Env) (q : createReq) : string + option time :=
  match req_ExpiresAt q with
  | Some s =>
      if negb (String.eqb (strings.TrimSpace s) "") then
        match ParseRFC3339 env (strings.TrimSpace s) with
        | inl err => inl err
        | inr t => inr (Some t)
        end
      else inr None
  | None => inr None
  end.

Definition createClient (a : App) (env : Env) (body : decoded createReq)
    (w : World) : Response * World :=
  let '(q, err) := Decode {| req_Name := ""; req_ExpiresAt := None |} body in
  if bool_decide (err <> None) then (http_Error "bad json" 400, w)
  else
  let name := strings.TrimSpace (req_Name q) in
  if String.eqb name "" then (http_Error "name required" 400, w)
  else
  match requestedExpiry env q with
  | inl _ => (http_Error "expiresAt must be RFC3339" 400, w)
  | inr exp =>
  match readServerState w with
  | inl err => (http_Error (Error err) 500, w)
  | inr st =>
  match loadClients w with
  | inl err => (http_Error (Error err) 500, w)
  | inr cs =>
  match allocateNextAddress st with
  | (inl err, _) =>
      (http_Error ("address allocation failed: " +:+ err) 500, w)
  | (inr addr, st) =>
  match GeneratePrivateKey env with
  | inl err => (http_Error err 500, w)
  | inr (priv, pub) =>
      let id := RandID env in
      let c := {| ID := id; Name := name; PublicKey := pub; PrivKey := priv;
                  Address := addr; CreatedAt := Now env 0;
                  ExpiresAt := exp |} in
      let cs := cs ++ [c] in
      match saveClients env cs w with
      | (Some err, w) => (http_Error err 500, w)
      | (None, w) =>
      match writeServerState env st w with
      | (Some err, w) => (http_Error err 500, w)
      | (None, w) =>
      match applyServerConfig a env (Now env 1) st cs w with
      | (Some err, w) => (http_Error ("apply failed: " +:+ err) 500, w)
      | (None, w) =>
          ({| Status := StatusOK; Payload := JSONClient (toPublic c) |}, w)
      end end end
  end end end end end.

Definition handleClients (a : App) (env : Env) (method : string)
    (body : decoded createReq) (w : World) : Response * World :=
  if String.eqb method "GET" then listClients w
  else if String.eqb method "POST" then createClient a env body w
  else (http_Error "method not allowed" StatusMethodNotAllowed, w).

(** ** Deleting a client (lines 413-452) *)

Fixpoint removeByID (cs : list client) (id : string)
    (out : list client) (found : bool) : list client * bool :=
  match cs with
  | [] => (out, found)
  | c :: cs' =>
      if String.eqb (ID c) id then removeByID cs' id out true
      else removeByID cs' id (out ++ [c]) found
  end.

Definition deleteClient (a : App) (env : Env) (id : string) (w : World)
    : Response * World :=
  match readServerState w with
  | inl err => (http_Error (Error err) 500, w)
  | inr st =>
  match loadClients w with
  | inl err => (http_Error (Error err) 500, w)
  | inr cs =>
      let '(out, found) := removeByID cs id [] false in
      if negb found then (http_Error "not found" 404, w)
      else
      match saveClients env out w with
      | (Some err, w) => (http_Error err 500, w)
      | (None, w) =>
      match applyServerConfig a env (Now env 0) st out w with
      | (Some err, w) => (http_Error ("apply failed: " +:+ err) 500, w)
      | (None, w) => ({| Status := StatusNoContent; Payload := NoBody |}, w)
      end end
  end end.

(** ** Client configuration download (lines 483-506) *)

Definition downloadConfig (a : App) (env : Env) (id : string) (w : World)
    : Response * World :=
  match findClientAndState w id with
  | inl err =>
      if isNotExist err then (http_Error "not found" 404, w)
      else (http_Error (Error err) 500, w)
  | inr (c, st) =>
      if expired (Now env 0) c then (http_Error "expired" StatusGone, w)
      else
        ({| Status := StatusOK; Payload := Text (renderClientConfig a w c st) |},
         w)
  end.

(** ** One-time links (lines 508-634) *)

Record linkReq := { TTLSeconds : option Z }.

(** [time.Second], in nanoseconds. *)
Definition Second : Z := 1000000000.

(** [time.Duration(ttl) * time.Second]: an int64 product. *)
Definition seconds (ttl : Z) : Z := wrap64 (ttl * Second).

(** The time-to-live chosen at lines 515-518. *)
Definition chosenTTL (q : linkReq) : Z :=
  let ttl := 3600 in
  match TTLSeconds q with
  | Some n => if 0 <? n then n else ttl
  | None => ttl
  end.

(** The existence loop at lines 529-535. *)
Fixpoint hasClient (cs : list client) (id : string) : bool :=
  match cs with
  | [] => false
  | c :: cs' => if String.eqb (ID c) id then true else hasClient cs' id
  end.

Definition createOneTimeLink (a : App) (env : Env) (body : decoded linkReq)
    (id : string) (w : World) : Response * World :=
  let '(q, _) := Decode {| TTLSeconds := None |} body in
  let ttl := chosenTTL q in
  match loadClients w with
  | inl err => (http_Error (Error err) 500, w)
  | inr cs =>
      let found := hasClient cs id in
      if negb found then (http_Error "not found" 404, w)
      else
      match loadTokens w with
      | inl err => (http_Error (Error err) 500, w)
      | inr ts =>
          let token := RandToken env in
          let t := {| Token := token; ClientID := id;
                      tok_ExpiresAt := Now env 0 + seconds ttl;
                      Used := false |} in
          let ts := ts ++ [t] in
          match saveTokens env ts w with
          | (Some err, w) => (http_Error err 500, w)
          | (None, w) =>
              ({| Status := StatusOK;
                  Payload := JSONLink ("/dl/" +:+ token) (tok_ExpiresAt t) |},
               w)
          end
      end
  end.

(** The lookup loop at lines 589-595: the index of the first token with
    that value, or -1. *)
Fixpoint findToken (ts : list dlToken) (token : string) (i : Z) : Z :=
  match ts with
  | [] => -1
  | t :: ts' =>
      if String.eqb (Token t) token then i else findToken ts' token (i + 1)
  end.

Definition handleDownloadToken (a : App) (env : Env) (method urlPath : string)
    (w : World) : Response * World :=
  if negb (String.eqb method "GET") then
    (http_Error "method not allowed" StatusMethodNotAllowed, w)
  else
  let token := strings.TrimPrefix urlPath "/dl/" in
  let token := strings.TrimSpace token in
  if String.eqb token "" then (http_Error "not found" 404, w)
  else
  match loadTokens w with
  | inl err => (http_Error (Error err) 500, w)
  | inr ts =>
      let idx := findToken ts token 0 in
      if idx <? 0 then (http_Error "not found" 404, w)
      else
      match ts !! Z.to_nat idx with
      | None => ({| Status := 500; Payload := Panic |}, w)
      | Some t =>
      if Used t then (http_Error "gone" StatusGone, w)
      else if After (Now env 0) (tok_ExpiresAt t) then
        (http_Error "gone" StatusGone, w)
      else
      let t := set_Used true t in
      let ts := <[Z.to_nat idx := t]> ts in
      match saveTokens env ts w with
      | (Some err, w) => (http_Error err 500, w)
      | (None, w) =>
      match findClientAndState w (ClientID t) with
      | inl err => (http_Error "not found" 404, w)
      | inr (c, st) =>
          if expired (Now env 1) c then (http_Error "expired" StatusGone, w)
          else
            ({| Status := StatusOK;
                Payload := Text (renderClientConfig a w c st) |}, w)
      end end
      end
  end.


(** ** Routing below /api/clients/ (lines 269-293) *)

(** [strings.Split(s, "/")]: the pieces between the slashes; one piece,
    the empty one, for the empty string. *)
Fixpoint strings_Split (s : string) : list string :=
  match s with
  | "" => [""]
  | String c s' =>
      if Ascii.eqb c "/" then "" :: strings_Split s'
      else
        match strings_Split s' with
        | x :: xs => String c x :: xs
        | [] => [String c ""]
        end
  end.

Definition handleClientByID (a : App) (env : Env) (method urlPath : string)
    (body : decoded linkReq) (w : World) : Response * World :=
  let rest := strings.TrimPrefix urlPath "/api/clients/" in
  let parts := strings_Split rest in
  if (length parts =? 0)%nat || String.eqb (nth 0 parts "") "" then
    (http_Error "bad request" 400, w)
  else
  let id := nth 0 parts "" in
  if (length parts =? 2)%nat && String.eqb (nth 1 parts "") "config"
     && String.eqb method "GET" then
    downloadConfig a env id w
  else if (length parts =? 2)%nat && String.eqb (nth 1 parts "") "link"
          && String.eqb method "POST" then
    createOneTimeLink a env body id w
  else if String.eqb method "DELETE" then
    deleteClient a env id w
  else (http_Error "not found" StatusNotFound, w).

(** ** The credential check (lines 132-141) *)

(** [subtle.ConstantTimeCompare]: 1 when the byte strings are equal. *)
Definition subtle_ConstantTimeCompare (x y : string) : Z :=
  if String.eqb x y then 1 else 0.

Definition StatusUnauthorized : Z := 401.

(** [withAuth(h)], applied to the value of the Authorization header (the
    empty string when the header is missing). *)
Definition withAuth (adminToken : string) (h : World -> Response * World)
    (authorization : string) (w : World) : Response * World :=
  let got :=
    strings.TrimSpace (strings.TrimPrefix authorization "Bearer ") in
  if negb (subtle_ConstantTimeCompare got adminToken =? 1) then
    (http_Error "unauthorized" StatusUnauthorized, w)
  else h w.

(** ** First start (lines 155-185) *)

(** [os.Stat] on a file that is there succeeds, whatever the file holds.
    [inSubnet] is what lines 160-165 come to for the two arguments: the
    error of [net.ParseCIDR(subnetCIDR)], or else whether the network
    contains [net.ParseIP(serverIP)]. *)
Definition ensureServerState (inSubnet : string + bool) (env : Env)
    (subnetCIDR serverIP : string) (w : World) : option string * World :=
  match server_json w with
  | Absent =>
      match inSubnet with
      | inl err => (Some ("invalid WG_SUBNET: " +:+ err), w)
      | inr false =>
          (Some ("server ip " +:+ serverIP +:+ " is not in subnet "
                 +:+ subnetCIDR), w)
      | inr true =>
          match GeneratePrivateKey env with
          | inl err => (Some err, w)
          | inr (priv, pub) =>
              let st := {| ServerPrivateKey := priv;
                           ServerPublicKey := pub;
                           SubnetCIDR := subnetCIDR;
                           ServerIP := serverIP;
                           NextHost := 2 |} in
              WriteFile env ServerJson (set_server_json (Stored st))
                (fun _ => set_server_json cutJSON) w
          end
      end
  | _ => (None, w)
  end.

(** ** Identifiers and tokens (lines 684-694) *)

Definition encodeURL : string :=
  "ABCDEFGHIJKLMNOPQRSTUVWXYZabcdefghijklmnopqrstuvwxyz0123456789-_".

Definition encodeURL_char (i : Z) : ascii :=
  match String.get (Z.to_nat i) encodeURL with
  | Some c => c
  | None => "A"%char
  end.

(** [base64.RawURLEncoding.EncodeToString(src)]: three bytes give four
    characters, a rest of one or two bytes gives two or three, and there is
    no padding. *)
Fixpoint RawURLEncoding_EncodeToString (src : list Z) : string :=
  match src with
  | b0 :: b1 :: b2 :: rest =>
      let val := Z.lor (Z.lor (Z.shiftl b0 16) (Z.shiftl b1 8)) b2 in
      String (encodeURL_char (Z.land (Z.shiftr val 18) 63))
        (String (encodeURL_char (Z.land (Z.shiftr val 12) 63))
           (String (encodeURL_char (Z.land (Z.shiftr val 6) 63))
              (String (encodeURL_char (Z.land val 63))
                 (RawURLEncoding_EncodeToString rest))))
  | [b0; b1] =>
      let val := Z.lor (Z.shiftl b0 16) (Z.shiftl b1 8) in
      String (encodeURL_char (Z.land (Z.shiftr val 18) 63))
        (String (encodeURL_char (Z.land (Z.shiftr val 12) 63))
           (String (encodeURL_char (Z.land (Z.shiftr val 6) 63)) ""))
  | [b0] =>
      let val := Z.shiftl b0 16 in
      String (encodeURL_char (Z.land (Z.shiftr val 18) 63))
        (String (encodeURL_char (Z.land (Z.shiftr val 12) 63)) "")
  | [] => ""
  end.

(** [makeID()], [buf] being the 18 bytes that [rand.Read] delivered. *)
Definition makeID (buf : list Z) : string :=
  RawURLEncoding_EncodeToString buf.

(** [randomToken(n)], [buf] being the [n] bytes that [rand.Read]
    delivered. *)
Definition randomToken (buf : list Z) : string :=
  RawURLEncoding_EncodeToString buf.

(** ** File names for downloads (lines 696-705) *)

Definition byteOf (c : ascii) : Z := Z.of_nat (nat_of_ascii c).

Definition charOf (b : Z) : ascii := ascii_of_nat (Z.to_nat b).

Definition RuneError : Z := 65533.

Definition inRange (lo hi : Z) (c : ascii) : bool :=
  (lo <=? byteOf c) && (byteOf c <=? hi).

Definition contBits (c : ascii) : Z := Z.land (byteOf c) 63.

(** [utf8.DecodeRuneInString]: the first rune of [s] and its width; an
    invalid or truncated encoding gives [RuneError] and width 1. *)
Definition utf8_DecodeRuneInString (s : string) : Z * nat :=
  match s with
  | "" => (RuneError, 0%nat)
  | String c0 s1 =>
      let b0 := byteOf c0 in
      if b0 <? 128 then (b0, 1%nat)
      else if (b0 <? 194) || (244 <? b0) then (RuneError, 1%nat)
      else if b0 <? 224 then
        match s1 with
        | String c1 _ =>
            if inRange 128 191 c1
            then (Z.lor (Z.shiftl (Z.land b0 31) 6) (contBits c1), 2%nat)
            else (RuneError, 1%nat)
        | _ => (RuneError, 1%nat)
        end
      else if b0 <? 240 then
        let lo := if b0 =? 224 then 160 else 128 in
        let hi := if b0 =? 237 then 159 else 191 in
        match s1 with
        | String c1 (String c2 _) =>
            if inRange lo hi c1 && inRange 128 191 c2
            then (Z.lor (Z.lor (Z.shiftl (Z.land b0 15) 12)
                           (Z.shiftl (contBits c1) 6)) (contBits c2), 3%nat)
            else (RuneError, 1%nat)
        | _ => (RuneError, 1%nat)
        end
      else
        let lo := if b0 =? 240 then 144 else 128 in
        let hi := if b0 =? 244 then 143 else 191 in
        match s1 with
        | String c1 (String c2 (String c3 _)) =>
            if inRange lo hi c1 && inRange 128 191 c2 && inRange 128 191 c3
            then (Z.lor (Z.lor (Z.lor (Z.shiftl (Z.land b0 7) 18)
                                  (Z.shiftl (contBits c1) 12))
                           (Z.shiftl (contBits c2) 6)) (contBits c3), 4%nat)
            else (RuneError, 1%nat)
        | _ => (RuneError, 1%nat)
        end
  end.

(** The bytes [utf8.AppendRune] writes for [r]. *)
Definition utf8_EncodeRune (r : Z) : string :=
  if (0 <=? r) && (r <=? 127) then String (charOf r) ""
  else if (0 <=? r) && (r <=? 2047) then
    String (charOf (Z.lor 192 (Z.shiftr r 6)))
      (String (charOf (Z.lor 128 (Z.land r 63))) "")
  else
    let r :=
      if (r <? 0) || (1114111 <? r) || ((55296 <=? r) && (r <=? 57343))
      then RuneError else r in
    if r <=? 65535 then
      String (charOf (Z.lor 224 (Z.shiftr r 12)))
        (String (charOf (Z.lor 128 (Z.land (Z.shiftr r 6) 63)))
           (String (charOf (Z.lor 128 (Z.land r 63))) ""))
    else
      String (charOf (Z.lor 240 (Z.shiftr r 18)))
        (String (charOf (Z.lor 128 (Z.land (Z.shiftr r 12) 63)))
           (String (charOf (Z.lor 128 (Z.land (Z.shiftr r 6) 63)))
              (String (charOf (Z.lor 128 (Z.land r 63))) ""))).

Fixpoint dropBytes (n : nat) (s : string) : string :=
  match n, s with
  | S n', String _ s' => dropBytes n' s'
  | _, _ => s
  end.

(** [strings.Map(mapping, s)]: every rune of [s] (an invalid byte counts
    as [RuneError]) is replaced by the encoding of its image, and dropped
    when the image is negative. *)
Fixpoint strings_Map (mapping : Z -> Z) (fuel : nat) (s : string) : string :=
  match fuel with
  | O => ""
  | S fuel' =>
      match s with
      | "" => ""
      | _ =>
          let '(c, width) := utf8_DecodeRuneInString s in
          let r := mapping c in
          (if 0 <=? r then utf8_EncodeRune r else "")
          +:+ strings_Map mapping fuel' (dropBytes width s)
      end
  end.

Fixpoint isASCII (s : string) : bool :=
  match s with
  | "" => true
  | String c s' => (byteOf c <? 128) && isASCII s'
  end.

Definition isUpperByte (c : ascii) : bool := inRange 65 90 c.

Fixpoint lowerBytes (s : string) : string :=
  match s with
  | "" => ""
  | String c s' =>
      String (if isUpperByte c then charOf (byteOf c + 32) else c)
        (lowerBytes s')
  end.

(** [strings.ToLower(s)]: bytewise on ASCII text, through [strings.Map]
    and [unicode.ToLower] otherwise. *)
Definition strings_ToLower (unicode_ToLower : Z -> Z) (s : string) : string :=
  if isASCII s then lowerBytes s
  else strings_Map unicode_ToLower (String.length s) s.

Fixpoint trimLeftByte (c : ascii) (s : string) : string :=
  match s with
  | String d s' => if Ascii.eqb d c then trimLeftByte c s' else s
  | "" => ""
  end.

(** [strings.Trim(s, "-")] *)
Definition strings_Trim_dash (s : string) : string :=
  trimLeftByte "-" (String.rev (trimLeftByte "-" (String.rev s))).

(** The function literal of line 698. *)
Definition keepFileRune (r : Z) : Z :=
  if (97 <=? r) && (r <=? 122) || (48 <=? r) && (r <=? 57)
     || (r =? 45) || (r =? 95)
  then r else 45.

(** [sanitize(s)]; [unicode_ToLower] is the case table of package
    unicode. *)
Definition sanitize (unicode_ToLower : Z -> Z) (s : string) : string :=
  let s := strings_ToLower unicode_ToLower (strings.TrimSpace s) in
  let s := strings_Map keepFileRune (String.length s) s in
  strings_Trim_dash s.

(** * Specification-side definitions *)

(** ** Allocation runs *)

(** The first three octets the allocator takes from [st.SubnetCIDR]. *)
Definition subnetBase (cidr : string) : option (Z * Z * Z) :=
  match net.ParseCIDR cidr with
  | Some (_, ipnet) =>
      match net.To4 (net.ipnet_IP ipnet) with
      | Some [b0; b1; b2; _] => Some (b0, b1, b2)
      | _ => None
      end
  | None => None
  end.

(** The dotted text of host [h] under a base. *)
Definition hostText (b : Z * Z * Z) (h : Z) : string :=
  let '(b0, b1, b2) := b in net.IPString (net.IPv4 b0 b1 b2 h).

(** [n] allocations in a row through the same [*serverState], all of
    them successful; [None] as soon as one fails. *)
Fixpoint allocateMany (n : nat) (st : serverState)
    : option (list string * serverState) :=
  match n with
  | O => Some ([], st)
  | S n' =>
      match allocateNextAddress st with
      | (inr addr, st1) =>
          match allocateMany n' st1 with
          | Some (addrs, st2) => Some (addr :: addrs, st2)
          | None => None
          end
      | (inl _, _) => None
      end
  end.

(** The address the allocator returns on the server state stored in [w]:
    the one the next [createClient] is handed, if it gets as far as the
    allocator. *)
Definition handedOut (w : World) : option string :=
  match readServerState w with
  | inr st =>
      match allocateNextAddress st with
      | (inr addr, _) => Some addr
      | (inl _, _) => None
      end
  | inl _ => None
  end.

(** ** Gateway configuration, following the specification's words *)

Definition spec_interfaceSection (a : App) (st : serverState) : string :=
  "[Interface]" +:+ nl +:+
  "PrivateKey = " +:+ ServerPrivateKey st +:+ nl +:+
  "ListenPort = " +:+ pretty (port a) +:+ nl +:+
  nl.

Definition spec_peerBlock (c : client) : string :=
  "[Peer]" +:+ nl +:+
  "PublicKey = " +:+ PublicKey c +:+ nl +:+
  "AllowedIPs = " +:+ strings.beforeSlash (Address c) +:+ "/32" +:+ nl +:+
  nl.

(** The expiry of [c] has passed at [now]: [c] has an expiry instant, and
    that instant lies before [now]. *)
Definition spec_expired (now : time) (c : client) : Prop :=
  exists e, ExpiresAt c = Some e /\ e < now.

#[global] Instance spec_expired_dec (now : time) (c : client) :
  Decision (spec_expired now c).
Proof.
  unfold spec_expired. destruct (ExpiresAt c) as [e|].
  - destruct (decide (e < now)) as [H|H].
    + left. exists e. split; [reflexivity | exact H].
    + right. intros (e' & He & Hlt). injection He as <-. exact (H Hlt).
  - right. intros (e & He & _). discriminate He.
Defined.

(** Interface section, then one peer block per client whose expiry has
    not passed at [now], in the order of the client list. *)
Definition spec_gatewayConfig (a : App) (st : serverState) (cs : list client)
    (now : time) : string :=
  spec_interfaceSection a st +:+
  String.concat ""
    (map spec_peerBlock (filter (fun c => ~ spec_expired now c) cs)).

(** ** Listing *)

Definition set_PrivKey (k : string) (c : client) : client :=
  {| ID := ID c; Name := Name c; PublicKey := PublicKey c; PrivKey := k;
     Address := Address c; CreatedAt := CreatedAt c;
     ExpiresAt := ExpiresAt c |}.

(** ** Tokens *)

(** The token a redemption request names. *)
Definition requestedToken (urlPath : string) : string :=
  strings.TrimSpace (strings.TrimPrefix urlPath "/dl/").

(** [t] is the first token of [ts] with value [tok], at index [i]. *)
Definition firstToken (ts : list dlToken) (tok : string) (i : nat)
    (t : dlToken) : Prop :=
  ts !! i = Some t /\ Token t = tok /\
  forall j t', (j < i)%nat -> ts !! j = Some t' -> Token t' <> tok.

(** No token of [ts] has value [tok]. *)
Definition noToken (ts : list dlToken) (tok : string) : Prop :=
  forall t, t ∈ ts -> Token t <> tok.

(** The error of the apply step, if any: writing the interface file,
    then [awg setconf]. *)
Definition applyErr (env : Env) : option string :=
  match WriteFileErr env IfaceConf with
  | Some err => Some err
  | None => SetconfErr env
  end.

(** ** Sample data *)

Definition app0 : App :=
  {| dataDir := "/data"; iface := "wg0"; port := 51820;
     endpoint := "vpn.example.org:51820" |}.

Definition st0 : serverState :=
  {| ServerPrivateKey := "server-priv";
     ServerPublicKey := "server-pub";
     SubnetCIDR := "10.8.0.0/24";
     ServerIP := "10.8.0.1";
     NextHost := 2 |}.

(** A gateway that sits on the last host of the subnet, with the cursor
    on that host (252 clients were created before). *)
Definition st_gw254 : serverState :=
  {| ServerPrivateKey := "server-priv";
     ServerPublicKey := "server-pub";
     SubnetCIDR := "10.8.0.0/24";
     ServerIP := "10.8.0.254";
     NextHost := 254 |}.

(** Everything outside the process works; the clock stands at 1000. *)
Definition env0 : Env :=
  {| Now := fun _ => 1000;
     WriteFileErr := fun _ => None;
     WriteFileLeaves := fun _ => Intact;
     SetconfErr := None;
     GeneratePrivateKey := inr ("priv-a", "pub-a");
     RandID := "id-a";
     RandToken := "tok-new";
     ParseRFC3339 := fun _ => inl "cannot parse" |}.

(** [awg setconf] exits with an error. *)
Definition env_setconf_fails : Env :=
  {| Now := Now env0; WriteFileErr := WriteFileErr env0;
     WriteFileLeaves := WriteFileLeaves env0;
     SetconfErr := Some "exit status 1";
     GeneratePrivateKey := GeneratePrivateKey env0;
     RandID := RandID env0; RandToken := RandToken env0;
     ParseRFC3339 := ParseRFC3339 env0 |}.

(** clients.json cannot be opened for writing. *)
Definition env_clients_unwritable : Env :=
  {| Now := Now env0;
     WriteFileErr := fun p =>
       match p with
       | ClientsJson => Some "open /data/clients.json: permission denied"
       | _ => None
       end;
     WriteFileLeaves := fun _ => Intact;
     SetconfErr := None;
     GeneratePrivateKey := GeneratePrivateKey env0;
     RandID := RandID env0; RandToken := RandToken env0;
     ParseRFC3339 := ParseRFC3339 env0 |}.

(** server.json cannot be opened for writing. *)
Definition env_state_unwritable : Env :=
  {| Now := Now env0;
     WriteFileErr := fun p =>
       match p with
       | ServerJson => Some "open /data/server.json: permission denied"
       | _ => None
       end;
     WriteFileLeaves := fun _ => Intact;
     SetconfErr := None;
     GeneratePrivateKey := GeneratePrivateKey env0;
     RandID := RandID env0; RandToken := RandToken env0;
     ParseRFC3339 := ParseRFC3339 env0 |}.

(** The disk is full: every file that is written is opened, emptied, and
    the write fails at its first byte. *)
Definition env_disk_full : Env :=
  {| Now := Now env0;
     WriteFileErr := fun _ => Some "write: no space left on device";
     WriteFileLeaves := fun _ => Cut 0;
     SetconfErr := None;
     GeneratePrivateKey := GeneratePrivateKey env0;
     RandID := RandID env0; RandToken := RandToken env0;
     ParseRFC3339 := ParseRFC3339 env0 |}.

(** The next request: other random values. *)
Definition env_next : Env :=
  {| Now := fun _ => 2000;
     WriteFileErr := fun _ => None;
     WriteFileLeaves := fun _ => Intact;
     SetconfErr := None;
     GeneratePrivateKey := inr ("priv-d", "pub-d");
     RandID := "id-d";
     RandToken := "tok-d";
     ParseRFC3339 := ParseRFC3339 env0 |}.

Definition w0 : World :=
  {| server_json := Stored st0; clients_json := Absent; tokens_json := Absent;
     iface_conf := None; live_conf := None;
     client_extra_interface_txt := None; client_allowedips_txt := None |}.

Definition body_alice : decoded createReq :=
  Decoded {| req_Name := "alice"; req_ExpiresAt := None |}.

Definition body_dave : decoded createReq :=
  Decoded {| req_Name := "dave"; req_ExpiresAt := None |}.

(** What the decoder makes of a body such as
    [{"ttlSeconds":60,"ttlSeconds":"x"}]: 60 is stored, then the string
    is refused with a type error. *)
Definition body_ttl60_mistyped : decoded linkReq :=
  Mistyped
    "json: cannot unmarshal string into Go struct field req.ttlSeconds of type int"
    {| TTLSeconds := Some 60 |}.

Definition alice : client :=
  {| ID := "id-a"; Name := "alice"; PublicKey := "pub-a"; PrivKey := "priv-a";
     Address := "10.8.0.2/32"; CreatedAt := 1000; ExpiresAt := None |}.

(** A client whose expiry (500) lies before the clock of [env0]. *)
Definition bob_expired : client :=
  {| ID := "id-b"; Name := "bob"; PublicKey := "pub-b"; PrivKey := "priv-b";
     Address := "10.8.0.3/32"; CreatedAt := 100; ExpiresAt := Some 500 |}.

Definition tok_alice : dlToken :=
  {| Token := "tok-a"; ClientID := "id-a"; tok_ExpiresAt := 5000;
     Used := false |}.

Definition tok_bob : dlToken :=
  {| Token := "tok-b"; ClientID := "id-b"; tok_ExpiresAt := 5000;
     Used := false |}.

(** A token for a client that has been deleted since. *)
Definition tok_carol : dlToken :=
  {| Token := "tok-c"; ClientID := "id-c"; tok_ExpiresAt := 5000;
     Used := false |}.

Definition w1 : World :=
  {| server_json := Stored (set_NextHost 4 st0);
     clients_json := Stored [alice; bob_expired];
     tokens_json := Stored [tok_alice; tok_bob; tok_carol];
     iface_conf := None; live_conf := None;
     client_extra_interface_txt := None; client_allowedips_txt := None |}.

(** ** Consistency of the stored records *)

(** The stored clients have pairwise distinct addresses, each of the form
    the allocator produces from the stored subnet, with a host below the
    stored cursor. *)
Definition consistent (w : World) : Prop :=
  forall st cs, readServerState w = inr st -> loadClients w = inr cs ->
    NoDup (map Address cs) /\
    Forall (fun c => exists b h,
              subnetBase (SubnetCIDR st) = Some b /\
              Address c = hostText b h +:+ "/32" /\
              h < NextHost st) cs.

(** A gateway on host 2, where the cursor starts. *)
Definition st_gw2 : serverState :=
  {| ServerPrivateKey := "server-priv";
     ServerPublicKey := "server-pub";
     SubnetCIDR := "10.8.0.0/24";
     ServerIP := "10.8.0.2";
     NextHost := 2 |}.

(** ** Texts *)

(** [s] holds no slash. *)
Fixpoint noSlash (s : string) : bool :=
  match s with
  | "" => true
  | String c s' => negb (Ascii.eqb c "/") && noSlash s'
  end.

(** The characters of the URL-safe base64 alphabet. *)
Definition urlSafeChar (c : ascii) : bool :=
  let n := nat_of_ascii c in
  ((65 <=? n) && (n <=? 90) || (97 <=? n) && (n <=? 122)
   || (48 <=? n) && (n <=? 57) || (n =? 45) || (n =? 95))%nat.

Fixpoint urlSafe (s : string) : bool :=
  match s with
  | "" => true
  | String c s' => urlSafeChar c && urlSafe s'
  end.

(** A state file written by an earlier start. *)
Definition w_started : World :=
  {| server_json := Stored st0; clients_json := Stored [alice];
     tokens_json := Absent; iface_conf := None; live_conf := None;
     client_extra_interface_txt := None; client_allowedips_txt := None |}.

(** A data directory before the first start. *)
Definition w_empty : World :=
  {| server_json := Absent; clients_json := Absent; tokens_json := Absent;
     iface_conf := None; live_conf := None;
     client_extra_interface_txt := None; client_allowedips_txt := None |}.

(** The characters [sanitize] lets through. *)
Definition fileSafeChar (c : ascii) : bool :=
  let n := byteOf c in
  (97 <=? n) && (n <=? 122) || (48 <=? n) && (n <=? 57)
  || (n =? 45) || (n =? 95).

Fixpoint fileSafe (s : string) : bool :=
  match s with
  | "" => true
  | String c s' => fileSafeChar c && fileSafe s'
  end.

Definition startsWithDash (s : string) : bool :=
  match s with
  | String c _ => Ascii.eqb c "-"
  | "" => false
  end.

Definition endsWithDash (s : string) : bool := startsWithDash (String.rev s).

(** A case table that knows the ASCII letters only. *)
Definition lowerASCII (r : Z) : Z :=
  if (65 <=? r) && (r <=? 90) then r + 32 else r.

(** ** Tokens over time *)

(** [ts'] keeps every token of [ts] at its place, with the same value,
    client and expiry, and with the used flag still set if it was set. *)
Definition tokensKept (ts ts' : list dlToken) : Prop :=
  forall i t, ts !! i = Some t ->
    exists t', ts' !! i = Some t' /\
      Token t' = Token t /\ ClientID t' = ClientID t /\
      tok_ExpiresAt t' = tok_ExpiresAt t /\
      (Used t = true -> Used t' = true).

(** The token list of [w], if readable, is kept in [w']. *)
Definition tokensKeptIn (w w' : World) : Prop :=
  forall ts, loadTokens w = inr ts ->
    exists ts', loadTokens w' = inr ts' /\ tokensKept ts ts'.

(** The token file is not cut short by a write of this request: the
    write succeeds, or its failure leaves the file whole. *)
Definition tokenFileWhole (env : Env) : Prop :=
  WriteFileErr env TokensJson = None \/
  forall n, WriteFileLeaves env TokensJson <> Cut n.

(** * Properties *)

(** ** Strings *)

Section StringFacts.

Lemma append_nil_l (s : string) : "" +:+ s = s.
Proof. reflexivity. Qed.

Lemma append_cons (c : ascii) (s t : string) :
  String c s +:+ t = String c (s +:+ t).
Proof. reflexivity. Qed.

Lemma append_assoc (s1 s2 s3 : string) :
  (s1 +:+ s2) +:+ s3 = s1 +:+ (s2 +:+ s3).
Proof.
  induction s1 as [|c s1 IH]; [reflexivity|].
  rewrite !append_cons. by rewrite IH.
Qed.

Lemma append_nil_r (s : string) : s +:+ "" = s.
Proof.
  induction s as [|c s IH]; [reflexivity|].
  rewrite append_cons. by rewrite IH.
Qed.

Lemma length_append (s1 s2 : string) :
  String.length (s1 +:+ s2) = (String.length s1 + String.length s2)%nat.
Proof.
  induction s1 as [|c s1 IH]; [reflexivity|].
  rewrite append_cons. simpl. by rewrite IH.
Qed.

Lemma append_inv_tail (s1 s2 t : string) : s1 +:+ t = s2 +:+ t -> s1 = s2.
Proof.
  revert s2. induction s1 as [|c s1 IH]; intros [|d s2] H.
  - reflexivity.
  - apply (f_equal String.length) in H.
    rewrite append_cons, append_nil_l in H. simpl in H.
    rewrite length_append in H. lia.
  - apply (f_equal String.length) in H.
    rewrite append_cons, append_nil_l in H. simpl in H.
    rewrite length_append in H. lia.
  - rewrite !append_cons in H. injection H as -> H. f_equal. by apply IH.
Qed.

End StringFacts.

(** ** The allocator *)

Section Allocator.

Lemma IPString_IPv4 (a b c d : Z) :
  net.IPString (net.IPv4 a b c d)
  = pretty a +:+ "." +:+ pretty b +:+ "." +:+ pretty c +:+ "." +:+ pretty d.
Proof. reflexivity. Qed.

Lemma hostText_inj (b : Z * Z * Z) : Inj (=) (=) (hostText b).
Proof.
  destruct b as [[b0 b1] b2]. intros h h' H. unfold hostText in H.
  rewrite !IPString_IPv4 in H.
  repeat (apply (inj (String.app _)) in H).
  by apply (inj pretty) in H.
Qed.

Lemma wrap64_small (z : Z) : - 2 ^ 63 <= z < 2 ^ 63 -> wrap64 z = z.
Proof. intros H. unfold wrap64. rewrite Z.mod_small; lia. Qed.

Lemma byte_of_int_small (z : Z) : 0 <= z < 256 -> byte_of_int z = z.
Proof. intros H. unfold byte_of_int. by rewrite Z.mod_small. Qed.

(** What a successful allocation returns and leaves behind. *)
Lemma allocate_ok (st st' : serverState) (addr : string) :
  allocateNextAddress st = (inr addr, st') ->
  exists b h,
    subnetBase (SubnetCIDR st) = Some b /\
    addr = hostText b h +:+ "/32" /\
    2 <= NextHost st <= 254 /\
    NextHost st <= h <= NextHost st + 1 /\
    hostText b h <> ServerIP st /\
    st' = set_NextHost (h + 1) st.
Proof.
  unfold allocateNextAddress, subnetBase.
  destruct (net.ParseCIDR (SubnetCIDR st)) as [[ip ipnet]|]; [|discriminate].
  destruct (net.To4 (net.ipnet_IP ipnet))
    as [[|b0 [|b1 [|b2 [|b3 [|? ?]]]]]|]; try discriminate.
  destruct (negb _); [discriminate|].
  destruct (_ || _) eqn:Hrange; [discriminate|].
  apply orb_false_elim in Hrange as [Hlo Hhi].
  apply Z.ltb_ge in Hlo, Hhi.
  destruct (String.eqb _ (ServerIP st)) eqn:Hgw; intros [= <- <-]; simpl.
  - exists (b0, b1, b2), (NextHost st + 1).
    apply String.eqb_eq in Hgw.
    rewrite (wrap64_small (NextHost st + 1)) by lia.
    rewrite byte_of_int_small in Hgw by lia.
    rewrite (byte_of_int_small (NextHost st + 1)) by lia.
    repeat split; try lia.
    + change (hostText (b0, b1, b2) (NextHost st + 1) <> ServerIP st).
      rewrite <- Hgw. intros Heq.
      apply (hostText_inj (b0, b1, b2)) in Heq. lia.
    + unfold set_NextHost; simpl. f_equal.
      rewrite wrap64_small by lia. reflexivity.
  - exists (b0, b1, b2), (NextHost st).
    apply String.eqb_neq in Hgw.
    rewrite byte_of_int_small in * by lia.
    repeat split; try lia.
    + exact Hgw.
    + unfold set_NextHost; simpl. f_equal.
      rewrite wrap64_small by lia. reflexivity.
Qed.

Lemma allocate_ok_fields (st st' : serverState) (addr : string) :
  allocateNextAddress st = (inr addr, st') ->
  SubnetCIDR st' = SubnetCIDR st /\ ServerIP st' = ServerIP st /\
  NextHost st < NextHost st'.
Proof.
  intros H. apply allocate_ok in H as (b & h & _ & _ & ? & ? & _ & ->).
  simpl. repeat split; lia.
Qed.

(** A failed allocation leaves [*st] as it was. *)
Lemma allocate_err_state (st st' : serverState) (err : string) :
  allocateNextAddress st = (inl err, st') -> st' = st.
Proof.
  unfold allocateNextAddress.
  destruct (net.ParseCIDR (SubnetCIDR st)) as [[ip ipnet]|]; [|by intros [= _ <-]].
  destruct (net.To4 (net.ipnet_IP ipnet))
    as [[|b0 [|b1 [|b2 [|b3 [|? ?]]]]]|]; try by intros [= _ <-].
  destruct (negb _); [by intros [= _ <-]|].
  destruct (_ || _); [by intros [= _ <-]|].
  destruct (String.eqb _ _); discriminate.
Qed.

(** Outside 2..254 the cursor makes the allocator fail. *)
Lemma allocate_exhausted (st : serverState) :
  NextHost st < 2 \/ 254 < NextHost st ->
  exists err, allocateNextAddress st = (inl err, st).
Proof.
  intros Hout. unfold allocateNextAddress.
  destruct (net.ParseCIDR (SubnetCIDR st)) as [[ip ipnet]|]; [|eauto].
  destruct (net.To4 (net.ipnet_IP ipnet))
    as [[|b0 [|b1 [|b2 [|b3 [|? ?]]]]]|]; eauto.
  destruct (negb _); [eauto|].
  assert ((NextHost st <? 2) || (254 <? NextHost st) = true) as ->; [|eauto].
  apply orb_true_iff. rewrite !Z.ltb_lt. exact Hout.
Qed.

(** With an exhausted pool [createClient] answers 500 and writes
    nothing: no client record is created. *)
Lemma createClient_exhausted (a : App) (env : Env) (body : decoded createReq)
    (w : World) (st : serverState) :
  readServerState w = inr st -> 254 < NextHost st ->
  snd (createClient a env body w) = w /\
  Status (fst (createClient a env body w)) <> StatusOK.
Proof.
  intros Hst Hout. unfold createClient.
  destruct (Decode _ body) as [q err].
  case_bool_decide; [by split|].
  destruct (String.eqb _ ""); [by split|].
  destruct (requestedExpiry env q); [by split|].
  rewrite Hst.
  destruct (loadClients w); [by split|].
  destruct (allocate_exhausted st) as [e ->]; [lia|].
  by split.
Qed.

Lemma allocateMany_inv (n : nat) :
  forall (st st' : serverState) (addrs : list string),
  allocateMany n st = Some (addrs, st') ->
  SubnetCIDR st' = SubnetCIDR st /\ ServerIP st' = ServerIP st /\
  NextHost st + Z.of_nat n <= NextHost st' /\
  Forall (fun addr => exists b h,
            subnetBase (SubnetCIDR st) = Some b /\
            addr = hostText b h +:+ "/32" /\
            NextHost st <= h < NextHost st' /\
            hostText b h <> ServerIP st) addrs /\
  NoDup addrs.
Proof.
  induction n as [|n IH]; intros st st' addrs; simpl.
  - intros [= <- <-]. repeat split; try lia; constructor.
  - destruct (allocateNextAddress st) as [[err|addr] st1] eqn:Halloc;
      [discriminate|].
    destruct (allocateMany n st1) as [[addrs' st2]|] eqn:Hrun; [|discriminate].
    intros [= <- <-].
    apply IH in Hrun as (Hcidr & Hip & Hcur & Hall & Hnd).
    pose proof (allocate_ok_fields _ _ _ Halloc) as (Hcidr1 & Hip1 & Hlt).
    apply allocate_ok in Halloc as (b & h & Hb & -> & Hrange & Hh & Hgw & ->).
    simpl in *.
    assert (Forall (fun addr => exists b h0,
              subnetBase (SubnetCIDR st) = Some b /\
              addr = hostText b h0 +:+ "/32" /\
              h + 1 <= h0 < NextHost st2 /\
              hostText b h0 <> ServerIP st) addrs') as Hall'.
    { eapply Forall_impl; [exact Hall|]. intros x (b' & h' & ? & ? & ? & ?).
      exists b', h'. repeat split; auto; lia. }
    repeat split; auto; try lia.
    + constructor.
      * exists b, h. repeat split; auto; lia.
      * eapply Forall_impl; [exact Hall'|].
        intros x (b' & h' & ? & ? & ? & ?). exists b', h'.
        repeat split; auto; lia.
    + constructor; [|exact Hnd].
      intros Hin. rewrite Forall_forall in Hall'.
      destruct (Hall' _ Hin) as (b' & h' & Hb' & Heq & Hh' & _).
      rewrite Hb in Hb'. injection Hb' as <-.
      apply append_inv_tail, hostText_inj in Heq. lia.
Qed.

(** Every address the allocator returns has a host octet from 2 to 255. *)
Lemma allocate_host_range (st st' : serverState) (addr : string) :
  allocateNextAddress st = (inr addr, st') ->
  exists b h, addr = hostText b h +:+ "/32" /\ 2 <= h <= 255.
Proof.
  intros H. apply allocate_ok in H as (b & h & _ & -> & ? & ? & _).
  exists b, h. split; [reflexivity | lia].
Qed.

(** C3: every address the allocator returns has a host octet between 2
    and 254.  The code breaks this when the gateway sits on host 254 and
    the cursor has reached it: the candidate is skipped, the cursor goes
    to 255 without a second range check, and the broadcast address
    10.8.0.255 is handed out. *)
Theorem allocate_skips_onto_broadcast :
  allocateNextAddress st_gw254
  = (inr "10.8.0.255/32", set_NextHost 256 st_gw254).
Proof. vm_compute. reflexivity. Qed.

(** The state [st_gw254] is the one 252 allocations lead to. *)
Example st_gw254_reached :
  snd <$> allocateMany 252 (set_NextHost 2 st_gw254) = Some st_gw254.
Proof. vm_compute. reflexivity. Qed.

(** C4 as stated fails: when the client record cannot be saved, the
    cursor that was advanced in memory is not written back, and the next
    create is handed the same address. *)
Lemma create_unsaved_reuses_address :
  handedOut w0 = Some "10.8.0.2/32" /\
  Status (fst (createClient app0 env_clients_unwritable body_alice w0)) = 500 /\
  handedOut (snd (createClient app0 env_clients_unwritable body_alice w0))
  = Some "10.8.0.2/32".
Proof. vm_compute. repeat split. Qed.

(** When the client record is saved and writing server.json then
    fails, the cursor on disk stays behind the record: the next create
    stores a second client with the same address. *)
Example create_state_unwritten_duplicates_address :
  Status (fst (createClient app0 env_state_unwritable body_alice w0)) = 500 /\
  match loadClients
          (snd (createClient app0 env_next body_dave
                  (snd (createClient app0 env_state_unwritable body_alice w0))))
  with
  | inr cs => map Address cs = ["10.8.0.2/32"; "10.8.0.2/32"]
  | inl _ => False
  end.
Proof. vm_compute. split; reflexivity. Qed.

(** The allocator compares the candidate with [st.ServerIP] as text.
    [ensureServerState] stores the server address as it was given, and
    [net.ParseIP] accepts the IPv4-mapped spelling of 10.8.0.2 below;
    with it the candidate 10.8.0.2 is not recognised as the gateway's
    address and is handed out. *)
Example mapped_gateway_address_is_handed_out :
  allocateNextAddress
    {| ServerPrivateKey := "server-priv"; ServerPublicKey := "server-pub";
       SubnetCIDR := "10.8.0.0/24"; ServerIP := "::ffff:10.8.0.2";
       NextHost := 2 |}
  = (inr "10.8.0.2/32",
     {| ServerPrivateKey := "server-priv"; ServerPublicKey := "server-pub";
        SubnetCIDR := "10.8.0.0/24"; ServerIP := "::ffff:10.8.0.2";
        NextHost := 3 |}).
Proof. vm_compute. reflexivity. Qed.

Lemma handedOut_server_json (w w' : World) :
  server_json w' = server_json w -> handedOut w' = handedOut w.
Proof.
  intros H. unfold handedOut, readServerState. by rewrite H.
Qed.

(** A create whose client record cannot be saved stops there: it is
    answered with an error and server.json is not written. *)
Lemma createClient_unsaved (a : App) (env : Env) (body : decoded createReq)
    (w : World) :
  WriteFileErr env ClientsJson <> None ->
  Status (fst (createClient a env body w)) <> StatusOK /\
  server_json (snd (createClient a env body w)) = server_json w.
Proof.
  intros Hfail. unfold createClient.
  destruct (Decode _ body) as [q err].
  case_bool_decide; [done|].
  destruct (String.eqb _ ""); [done|].
  destruct (requestedExpiry env q); [done|].
  destruct (readServerState w); [done|].
  destruct (loadClients w); [done|].
  destruct (allocateNextAddress _) as [[?|addr] st']; [done|].
  destruct (GeneratePrivateKey env) as [?|[priv pub]]; [done|].
  unfold saveClients, WriteFile.
  destruct (WriteFileErr env ClientsJson); [|congruence].
  by destruct (WriteFileLeaves env ClientsJson).
Qed.

(** C4 (amended): the addresses of a run of successful allocations
    through one server state are pairwise distinct; none is the text of
    [ServerIP] followed by /32, so that, when [ServerIP] is the
    dotted-decimal text of a host [g] of the subnet, every address handed
    out has a host other than [g]; the cursor ends beyond every host
    handed out.  The advanced cursor reaches the disk only after the
    client record was saved: a create whose client record cannot be saved
    is answered with an error and does not write server.json, so the
    next create is handed the same address as this one. *)
Theorem allocation_run_distinct (n : nat) (st st' : serverState)
    (addrs : list string) (a : App) (env : Env) (body : decoded createReq)
    (w : World) :
  allocateMany n st = Some (addrs, st') ->
  NoDup addrs /\
  Forall (fun addr => addr <> ServerIP st +:+ "/32") addrs /\
  (forall b g, subnetBase (SubnetCIDR st) = Some b ->
     ServerIP st = hostText b g ->
     Forall (fun addr => exists h,
               addr = hostText b h +:+ "/32" /\ h <> g) addrs) /\
  Forall (fun addr => exists b h,
            addr = hostText b h +:+ "/32" /\
            NextHost st <= h < NextHost st') addrs /\
  NextHost st + Z.of_nat n <= NextHost st' /\
  (WriteFileErr env ClientsJson <> None ->
   Status (fst (createClient a env body w)) <> StatusOK /\
   server_json (snd (createClient a env body w)) = server_json w /\
   handedOut (snd (createClient a env body w)) = handedOut w).
Proof.
  intros Hrun.
  apply allocateMany_inv in Hrun as (_ & _ & Hcur & Hall & Hnd).
  split; [exact Hnd|]. split; [|split; [|split; [|split; [exact Hcur|]]]].
  - eapply Forall_impl; [exact Hall|].
    intros x (b & h & _ & -> & _ & Hgw) Heq.
    by apply append_inv_tail in Heq.
  - intros b g Hb Hg. eapply Forall_impl; [exact Hall|].
    intros x (b' & h & Hb' & -> & _ & Hgw).
    rewrite Hb in Hb'. injection Hb' as <-.
    exists h. split; [reflexivity|]. intros ->. by apply Hgw.
  - eapply Forall_impl; [exact Hall|].
    intros x (b & h & _ & -> & ? & _). by exists b, h.
  - intros Hfail.
    destruct (createClient_unsaved a env body w Hfail) as [Hst Hsrv].
    split; [exact Hst|]. split; [exact Hsrv|].
    by apply handedOut_server_json.
Qed.

Lemma allocation_run_distinct_witness :
  NoDup ["10.8.0.2/32"; "10.8.0.3/32"; "10.8.0.4/32"] /\
  Forall (fun addr => exists h,
            addr = hostText (10, 8, 0) h +:+ "/32" /\ h <> 1)
    ["10.8.0.2/32"; "10.8.0.3/32"; "10.8.0.4/32"] /\
  handedOut (snd (createClient app0 env_disk_full body_alice w0))
  = handedOut w0.
Proof.
  assert (allocateMany 3 st0
          = Some (["10.8.0.2/32"; "10.8.0.3/32"; "10.8.0.4/32"],
                  set_NextHost 5 st0)) as Hrun
    by (vm_compute; reflexivity).
  destruct (allocation_run_distinct 3 st0 _ _ app0 env_disk_full
              body_alice w0 Hrun) as (Hnd & _ & Hgw & _ & _ & Hw).
  split; [exact Hnd|]. split.
  - apply (Hgw (10, 8, 0) 1); vm_compute; reflexivity.
  - apply Hw. discriminate.
Defined.

End Allocator.

(** ** Gateway configuration *)

Section Renderer.

Lemma concat_cons (x : string) (xs : list string) :
  String.concat "" (x :: xs) = x +:+ String.concat "" xs.
Proof.
  destruct xs as [|y ys]; simpl.
  - by rewrite append_nil_r.
  - reflexivity.
Qed.

(** The test of line 467 (an expiry is set, and [time.Now()] is after
    it) holds exactly when the expiry of the client has passed. *)
Lemma expired_iff_spec (now : time) (c : client) :
  expired now c = true <-> spec_expired now c.
Proof.
  unfold expired, spec_expired, After.
  destruct (ExpiresAt c) as [e|].
  - rewrite Z.ltb_lt. split.
    + intros H. by exists e.
    + intros (e' & [= <-] & H). exact H.
  - split; [discriminate|]. intros (e & [=] & _).
Qed.

Lemma writePeers_blocks (now : time) (cs : list client) :
  forall b : string,
  writePeers now cs b
  = b +:+ String.concat ""
            (map spec_peerBlock
               (filter (fun c => ~ spec_expired now c) cs)).
Proof.
  induction cs as [|c cs IH]; intros b.
  - simpl. by rewrite append_nil_r.
  - cbn [writePeers]. rewrite filter_cons.
    destruct (expired now c) eqn:Hexp.
    + rewrite decide_False; [apply IH|].
      intros Hn. apply Hn. by apply expired_iff_spec.
    + rewrite decide_True.
      * rewrite IH. cbn [map]. rewrite concat_cons.
        unfold spec_peerBlock. by rewrite !append_assoc.
      * intros Hs. apply expired_iff_spec in Hs. congruence.
Qed.


(** The scenario of the specification: A active, B expired. *)
Example gateway_config_active_expired :
  renderServerConfig app0 st0 [alice; bob_expired] 1000
  = spec_interfaceSection app0 st0 +:+ spec_peerBlock alice.
Proof. vm_compute. reflexivity. Qed.

(** A client whose expiry instant is the render time itself is still
    rendered; one instant later it is not. *)
Example gateway_config_at_expiry_instant :
  renderServerConfig app0 st0 [bob_expired] 500
  = spec_interfaceSection app0 st0 +:+ spec_peerBlock bob_expired /\
  renderServerConfig app0 st0 [bob_expired] 501
  = spec_interfaceSection app0 st0.
Proof. vm_compute. split; reflexivity. Qed.

End Renderer.

(** ** Listing *)

Section Listing.

Lemma publicViews_map (cs : list client) :
  forall out, publicViews cs out = out ++ map toPublic cs.
Proof.
  induction cs as [|c cs IH]; intros out; simpl.
  - by rewrite app_nil_r.
  - rewrite IH. by rewrite <- app_assoc.
Qed.

Lemma toPublic_set_PrivKey (k : string) (c : client) :
  toPublic (set_PrivKey k c) = toPublic c.
Proof. reflexivity. Qed.

(** C7: listing returns, per stored client and in the stored order,
    the record made of its id, name, public key, address, creation time
    and optional expiry, and nothing that depends on the private keys:
    replacing every private key in the store leaves the listing as it
    was. *)
Theorem listing_is_public_projection (a : App) (env : Env)
    (body : decoded createReq) (w : World) (cs : list client)
    (f : client -> string) :
  handleClients a env "GET" body (set_clients_json (Stored cs) w)
  = ({| Status := StatusOK;
        Payload :=
          JSONClients
            (map (fun c => {| pub_ID := ID c;
                              pub_Name := Name c;
                              pub_PublicKey := PublicKey c;
                              pub_Address := Address c;
                              pub_CreatedAt := CreatedAt c;
                              pub_ExpiresAt := ExpiresAt c |}) cs) |},
     set_clients_json (Stored cs) w) /\
  fst (handleClients a env "GET" body
         (set_clients_json
            (Stored (map (fun c => set_PrivKey (f c) c) cs)) w))
  = fst (handleClients a env "GET" body (set_clients_json (Stored cs) w)).
Proof.
  unfold handleClients. cbn [String.eqb Ascii.eqb Bool.eqb].
  unfold listClients, loadClients. cbn [clients_json set_clients_json fst].
  rewrite !publicViews_map. cbn [app]. split; [reflexivity|].
  do 2 f_equal. rewrite map_map. apply map_ext. intros c.
  apply toPublic_set_PrivKey.
Qed.

End Listing.

(** ** Issuing one-time links *)

Section Issuance.

Lemma hasClient_true (cs : list client) (id : string) :
  hasClient cs id = true <-> exists c, c ∈ cs /\ ID c = id.
Proof.
  induction cs as [|c cs IH]; simpl.
  - split; [discriminate|]. intros (c & Hin & _). by apply elem_of_nil in Hin.
  - destruct (String.eqb (ID c) id) eqn:Heq.
    + apply String.eqb_eq in Heq. split; [|done].
      intros _. exists c. split; [apply list_elem_of_here | done].
    + apply String.eqb_neq in Heq. rewrite IH. split.
      * intros (c' & Hin & Hid). exists c'. split; [|done].
        by apply list_elem_of_further.
      * intros (c' & Hin & Hid). apply elem_of_cons in Hin as [->|Hin]; [done|].
        by exists c'.
Qed.

Lemma hasClient_false (cs : list client) (id : string) :
  hasClient cs id = false <-> forall c, c ∈ cs -> ID c <> id.
Proof.
  rewrite <- not_true_iff_false, hasClient_true. split.
  - intros Hno c Hin Hid. apply Hno. by exists c.
  - intros Hall (c & Hin & Hid). by apply (Hall c).
Qed.

(** The time-to-live of lines 515-518. *)
Lemma chosenTTL_spec (q : linkReq) :
  chosenTTL q =
    match TTLSeconds q with
    | Some n => if decide (0 < n) then n else 3600
    | None => 3600
    end.
Proof.
  unfold chosenTTL. destruct (TTLSeconds q) as [n|]; [|reflexivity].
  destruct (Z.ltb_spec 0 n); case_decide; (reflexivity || lia).
Qed.


(** For a client that exists the link is issued, given that the token
    file can be read and written. *)
Lemma createOneTimeLink_issues (a : App) (env : Env) (body : decoded linkReq)
    (id : string) (w : World) (cs : list client) (c : client)
    (ts : list dlToken) :
  loadClients w = inr cs -> c ∈ cs -> ID c = id ->
  loadTokens w = inr ts -> WriteFileErr env TokensJson = None ->
  let ttl := chosenTTL (fst (Decode {| TTLSeconds := None |} body)) in
  let t := {| Token := RandToken env; ClientID := id;
              tok_ExpiresAt := Now env 0 + seconds ttl;
              Used := false |} in
  createOneTimeLink a env body id w
  = ({| Status := StatusOK;
        Payload := JSONLink ("/dl/" +:+ RandToken env) (tok_ExpiresAt t) |},
     set_tokens_json (Stored (ts ++ [t])) w).
Proof.
  intros Hcs Hin Hid Hts Hw.
  assert (hasClient cs id = true) as Hfound
    by (apply hasClient_true; by exists c).
  unfold createOneTimeLink. destruct (Decode _ body) as [q e].
  rewrite Hcs, Hfound, Hts. unfold saveTokens, WriteFile. rewrite Hw.
  reflexivity.
Qed.

(** C8: a positive ttlSeconds sets the expiry that many seconds ahead.
    The code breaks this for a value whose nanosecond count does not fit
    an int64: with ttlSeconds 9223372037 the product wraps around and the
    expiry lies in the past. *)
Theorem link_ttl_wraps_around :
  chosenTTL {| TTLSeconds := Some 9223372037 |} = 9223372037 /\
  fst (createOneTimeLink app0 env0
         (Decoded {| TTLSeconds := Some 9223372037 |}) "id-a" w1)
  = {| Status := StatusOK;
       Payload := JSONLink "/dl/tok-new" (Now env0 0 - 9223372036709551616) |}.
Proof. vm_compute. split; reflexivity. Qed.

(** C9: issuing a link fails with 404 and writes nothing when no client
    has the id, and succeeds for every client that exists, whatever its
    expiry: the client's [ExpiresAt] is not looked at. *)
Theorem link_needs_existing_client_only (a : App) (env : Env)
    (body : decoded linkReq) (id : string) (w : World) (cs : list client) :
  loadClients w = inr cs ->
  ((forall c, c ∈ cs -> ID c <> id) ->
   createOneTimeLink a env body id w
   = (http_Error "not found" StatusNotFound, w)) /\
  (forall (c : client) (ts : list dlToken),
     c ∈ cs -> ID c = id ->
     loadTokens w = inr ts -> WriteFileErr env TokensJson = None ->
     let ttl := chosenTTL (fst (Decode {| TTLSeconds := None |} body)) in
     let t := {| Token := RandToken env; ClientID := id;
                 tok_ExpiresAt := Now env 0 + seconds ttl;
                 Used := false |} in
     createOneTimeLink a env body id w
     = ({| Status := StatusOK;
           Payload := JSONLink ("/dl/" +:+ RandToken env) (tok_ExpiresAt t) |},
        set_tokens_json (Stored (ts ++ [t])) w)).
Proof.
  intros Hcs. split.
  - intros Hno. apply hasClient_false in Hno.
    unfold createOneTimeLink. destruct (Decode _ body) as [q e].
    by rewrite Hcs, Hno.
  - intros c ts Hin Hid Hts Hw.
    by apply (createOneTimeLink_issues a env body id w cs c ts).
Qed.

(** A link is issued for [bob_expired], whose expiry has passed. *)
Lemma link_needs_existing_client_only_witness :
  expired (Now env0 0) bob_expired = true /\
  Status (fst (createOneTimeLink app0 env0
                 (Decoded {| TTLSeconds := Some 60 |}) "id-b" w1))
  = StatusOK.
Proof.
  split; [reflexivity|].
  destruct (link_needs_existing_client_only app0 env0
              (Decoded {| TTLSeconds := Some 60 |}) "id-b" w1
              [alice; bob_expired] eq_refl) as [_ Hissue].
  rewrite (Hissue bob_expired [tok_alice; tok_bob; tok_carol]).
  - reflexivity.
  - apply list_elem_of_further, list_elem_of_here.
  - reflexivity.
  - reflexivity.
  - reflexivity.
Defined.

(** C10 as stated fails: a body whose JSON value does not fit the
    request struct makes the decoder return an error after it has stored
    the ttlSeconds it found; the error is dropped and the link is issued
    with that value, here 60 seconds, not with 3600. *)
Lemma malformed_body_keeps_its_ttl :
  snd (Decode {| TTLSeconds := None |} body_ttl60_mistyped) <> None /\
  createOneTimeLink app0 env0 body_ttl60_mistyped "id-a" w1
  = ({| Status := StatusOK;
        Payload := JSONLink "/dl/tok-new" (1000 + 60 * Second) |},
     set_tokens_json
       (Stored [tok_alice; tok_bob; tok_carol;
                {| Token := "tok-new"; ClientID := "id-a";
                   tok_ExpiresAt := 1000 + 60 * Second;
                   Used := false |}]) w1).
Proof. split; [discriminate | vm_compute; reflexivity]. Qed.

(** C10 (amended): whatever the body, it does not get the request
    rejected: the decode error is dropped and the link is issued.  Its
    time-to-live is 3600 seconds when the decoder stored nothing (body
    missing, or first JSON value not well-formed); when the decoder
    stored a ttlSeconds and then returned an error, the link is the one
    issued for that ttlSeconds without the error. *)
Theorem decode_error_is_dropped (a : App) (env : Env)
    (id : string) (w : World) (cs : list client) (ts : list dlToken) :
  loadClients w = inr cs -> (exists c, c ∈ cs /\ ID c = id) ->
  loadTokens w = inr ts -> WriteFileErr env TokensJson = None ->
  (forall body, exists ttl,
     createOneTimeLink a env body id w
     = ({| Status := StatusOK;
           Payload := JSONLink ("/dl/" +:+ RandToken env)
                        (Now env 0 + seconds ttl) |},
        set_tokens_json
          (Stored (ts ++ [{| Token := RandToken env; ClientID := id;
                             tok_ExpiresAt := Now env 0 + seconds ttl;
                             Used := false |}])) w) /\
     match body with
     | Undecodable _ => ttl = 3600
     | Mistyped _ q | Decoded q =>
         ttl = match TTLSeconds q with
               | Some n => if decide (0 < n) then n else 3600
               | None => 3600
               end
     end) /\
  (forall err,
     createOneTimeLink a env (Undecodable err) id w
     = ({| Status := StatusOK;
           Payload := JSONLink ("/dl/" +:+ RandToken env)
                        (Now env 0 + 3600 * Second) |},
        set_tokens_json
          (Stored (ts ++ [{| Token := RandToken env; ClientID := id;
                             tok_ExpiresAt := Now env 0 + 3600 * Second;
                             Used := false |}])) w)) /\
  (forall err q w',
     createOneTimeLink a env (Mistyped err q) id w'
     = createOneTimeLink a env (Decoded q) id w').
Proof.
  intros Hcs (c & Hin & Hid) Hts Hw. split; [|split].
  - intros body.
    exists (chosenTTL (fst (Decode {| TTLSeconds := None |} body))).
    split.
    + apply (createOneTimeLink_issues a env body id w cs c ts
               Hcs Hin Hid Hts Hw).
    + destruct body as [q|err|err q]; cbn [Decode fst];
        [apply chosenTTL_spec | reflexivity | apply chosenTTL_spec].
  - intros err.
    rewrite (createOneTimeLink_issues a env (Undecodable err) id w cs c ts
               Hcs Hin Hid Hts Hw).
    reflexivity.
  - reflexivity.
Qed.

Lemma decode_error_is_dropped_witness :
  createOneTimeLink app0 env0 (Undecodable "unexpected EOF") "id-a" w1
  = ({| Status := StatusOK;
        Payload := JSONLink "/dl/tok-new" 3600000001000 |},
     set_tokens_json
       (Stored [tok_alice; tok_bob; tok_carol;
                {| Token := "tok-new"; ClientID := "id-a";
                   tok_ExpiresAt := 3600000001000; Used := false |}]) w1).
Proof.
  destruct (decode_error_is_dropped app0 env0 "id-a" w1
              [alice; bob_expired] [tok_alice; tok_bob; tok_carol])
    as (_ & H & _).
  - reflexivity.
  - exists alice. split; [apply list_elem_of_here | reflexivity].
  - reflexivity.
  - reflexivity.
  - exact (H "unexpected EOF").
Defined.

End Issuance.

(** ** Apply failures *)

Section ApplyFailure.

Lemma removeByID_filter (cs : list client) (id : string) :
  forall out found,
  removeByID cs id out found
  = (out ++ filter (fun c => ID c <> id) cs, found || hasClient cs id).
Proof.
  induction cs as [|c cs IH]; intros out found; simpl.
  - by rewrite app_nil_r, orb_false_r.
  - rewrite filter_cons. destruct (String.eqb (ID c) id) eqn:Heq.
    + apply String.eqb_eq in Heq. rewrite decide_False by tauto.
      rewrite IH. by rewrite orb_true_r.
    + apply String.eqb_neq in Heq. rewrite decide_True by done.
      rewrite IH. by rewrite <- app_assoc.
Qed.

Lemma applyServerConfig_fails (a : App) (env : Env) (now : time)
    (st : serverState) (cs : list client) (w : World) (e : string) :
  applyErr env = Some e ->
  exists w', applyServerConfig a env now st cs w = (Some e, w') /\
             server_json w' = server_json w /\
             clients_json w' = clients_json w /\
             tokens_json w' = tokens_json w.
Proof.
  unfold applyErr, applyServerConfig, WriteFile.
  destruct (WriteFileErr env IfaceConf) as [e'|].
  - intros [= ->]. eexists. split; [reflexivity|].
    by destruct (WriteFileLeaves env IfaceConf).
  - intros ->. by eexists.
Qed.

(** C5: on create and on delete, when the record change was written and
    the apply step then fails, the answer is the apply error and the
    written records stay as written. *)
Theorem apply_failure_keeps_records (a : App) (env : Env) (w : World)
    (e : string) :
  applyErr env = Some e ->
  WriteFileErr env ClientsJson = None ->
  (forall (q : createReq) (exp : option time) (st st' : serverState)
          (cs : list client) (addr priv pub : string),
     strings.TrimSpace (req_Name q) <> "" ->
     requestedExpiry env q = inr exp ->
     readServerState w = inr st -> loadClients w = inr cs ->
     allocateNextAddress st = (inr addr, st') ->
     GeneratePrivateKey env = inr (priv, pub) ->
     WriteFileErr env ServerJson = None ->
     let c := {| ID := RandID env; Name := strings.TrimSpace (req_Name q);
                 PublicKey := pub; PrivKey := priv; Address := addr;
                 CreatedAt := Now env 0; ExpiresAt := exp |} in
     let r := createClient a env (Decoded q) w in
     fst r = http_Error ("apply failed: " +:+ e) 500 /\
     clients_json (snd r) = Stored (cs ++ [c]) /\
     server_json (snd r) = Stored st') /\
  (forall (id : string) (st : serverState) (cs : list client) (c : client),
     readServerState w = inr st -> loadClients w = inr cs ->
     c ∈ cs -> ID c = id ->
     let r := deleteClient a env id w in
     fst r = http_Error ("apply failed: " +:+ e) 500 /\
     clients_json (snd r) = Stored (filter (fun c => ID c <> id) cs)).
Proof.
  intros Happly Hwc. split.
  - intros q exp st st' cs addr priv pub Hname Hexp Hst Hcs Halloc Hkey Hws.
    cbn zeta. unfold createClient. cbn [Decode].
    rewrite bool_decide_false by (intros H; by apply H).
    apply String.eqb_neq in Hname. rewrite Hname, Hexp, Hst, Hcs, Halloc, Hkey.
    unfold saveClients, writeServerState, WriteFile. rewrite Hwc, Hws.
    match goal with
    | |- context [applyServerConfig a env ?now ?s ?l ?w0] =>
        destruct (applyServerConfig_fails a env now s l w0 e Happly)
          as (w' & -> & Hsrv & Hcl & _)
    end.
    cbn [fst snd]. rewrite Hsrv, Hcl. by repeat split.
  - intros id st cs c Hst Hcs Hin Hid.
    cbn zeta. unfold deleteClient. rewrite Hst, Hcs, removeByID_filter.
    assert (hasClient cs id = true) as ->
      by (apply hasClient_true; by exists c).
    cbn [negb orb app]. unfold saveClients, WriteFile. rewrite Hwc.
    match goal with
    | |- context [applyServerConfig a env ?now ?s ?l ?w0] =>
        destruct (applyServerConfig_fails a env now s l w0 e Happly)
          as (w' & -> & _ & Hcl & _)
    end.
    cbn [fst snd]. rewrite Hcl. by split.
Qed.

Lemma apply_failure_keeps_records_witness :
  (fst (createClient app0 env_setconf_fails body_alice w0)
   = http_Error "apply failed: exit status 1" 500 /\
   clients_json (snd (createClient app0 env_setconf_fails body_alice w0))
   = Stored [alice]) /\
  (fst (deleteClient app0 env_setconf_fails "id-a" w1)
   = http_Error "apply failed: exit status 1" 500 /\
   clients_json (snd (deleteClient app0 env_setconf_fails "id-a" w1))
   = Stored [bob_expired]).
Proof.
  destruct (apply_failure_keeps_records app0 env_setconf_fails w0
              "exit status 1" eq_refl eq_refl) as [Hcreate _].
  destruct (apply_failure_keeps_records app0 env_setconf_fails w1
              "exit status 1" eq_refl eq_refl) as [_ Hdelete].
  split.
  - destruct (Hcreate {| req_Name := "alice"; req_ExpiresAt := None |} None
                st0 (set_NextHost 3 st0) [] "10.8.0.2/32" "priv-a" "pub-a")
      as (Hr & Hc & _); try reflexivity.
    + vm_compute. discriminate.
    + split; [exact Hr | exact Hc].
  - destruct (Hdelete "id-a" (set_NextHost 4 st0) [alice; bob_expired] alice)
      as (Hr & Hc); try reflexivity.
    + apply list_elem_of_here.
    + split; [exact Hr | exact Hc].
Defined.

End ApplyFailure.

(** ** Redeeming one-time links *)

Section Redemption.

Lemma findToken_first (ts : list dlToken) (tok : string) :
  forall (i : nat) (t : dlToken) (k : Z),
  firstToken ts tok i t -> findToken ts tok k = k + Z.of_nat i.
Proof.
  induction ts as [|t0 ts IH]; intros i t k (Hlook & Htok & Hbefore).
  - by rewrite lookup_nil in Hlook.
  - simpl. destruct i as [|i].
    + injection Hlook as ->. apply String.eqb_eq in Htok. rewrite Htok. lia.
    + assert (Token t0 <> tok) as Hne
        by (apply (Hbefore 0%nat); [lia | reflexivity]).
      apply String.eqb_neq in Hne. rewrite Hne.
      rewrite (IH i t (k + 1)); [lia|].
      split; [exact Hlook|]. split; [exact Htok|].
      intros j t' Hj Hl. apply (Hbefore (S j)); [lia | exact Hl].
Qed.

Lemma findToken_noToken (ts : list dlToken) (tok : string) :
  forall k : Z, noToken ts tok -> findToken ts tok k = -1.
Proof.
  induction ts as [|t0 ts IH]; intros k Hno; simpl; [reflexivity|].
  assert (Token t0 <> tok) as Hne by (apply Hno, list_elem_of_here).
  apply String.eqb_neq in Hne. rewrite Hne. apply IH.
  intros t Hin. by apply Hno, list_elem_of_further.
Qed.

(** The lookup loop finds the first token with the value, or none. *)
Lemma findToken_spec (ts : list dlToken) (tok : string) :
  forall k : Z,
  (findToken ts tok k = -1 /\ noToken ts tok) \/
  (exists i t, findToken ts tok k = k + Z.of_nat i /\ firstToken ts tok i t).
Proof.
  induction ts as [|t0 ts IH]; intros k; simpl.
  - left. split; [reflexivity|]. intros t Hin. by apply elem_of_nil in Hin.
  - destruct (String.eqb (Token t0) tok) eqn:Heq.
    + apply String.eqb_eq in Heq. right. exists 0%nat, t0.
      split; [lia|]. split; [reflexivity|]. split; [exact Heq|]. lia.
    + apply String.eqb_neq in Heq.
      destruct (IH (k + 1)) as [[Hm Hno]|(i & t & Hi & Hl & Ht & Hb)].
      * left. split; [exact Hm|]. intros t Hin.
        apply elem_of_cons in Hin as [->|Hin]; [exact Heq | by apply Hno].
      * right. exists (S i), t. split; [lia|].
        split; [exact Hl|]. split; [exact Ht|].
        intros [|j] t' Hj Hl'.
        -- by injection Hl' as <-.
        -- apply (Hb j); [lia | exact Hl'].
Qed.

Lemma firstToken_unique (ts : list dlToken) (tok : string)
    (i i' : nat) (t t' : dlToken) :
  firstToken ts tok i t -> firstToken ts tok i' t' -> i = i' /\ t = t'.
Proof.
  intros H H'.
  pose proof (findToken_first ts tok i t 0 H) as E.
  rewrite (findToken_first ts tok i' t' 0 H') in E.
  assert (i = i') as <- by lia. split; [reflexivity|].
  destruct H as [Hl _], H' as [Hl' _]. congruence.
Qed.

Lemma firstToken_not_noToken (ts : list dlToken) (tok : string)
    (i : nat) (t : dlToken) :
  firstToken ts tok i t -> noToken ts tok -> False.
Proof.
  intros (Hl & Ht & _) Hno. apply (Hno t); [|exact Ht].
  by eapply list_elem_of_lookup_2.
Qed.

Lemma findClient_none (cs : list client) (id : string) :
  (forall c, c ∈ cs -> ID c <> id) -> findClient cs id = None.
Proof.
  induction cs as [|c cs IH]; intros Hno; simpl; [reflexivity|].
  assert (ID c <> id) as Hne by (apply Hno, list_elem_of_here).
  apply String.eqb_neq in Hne. rewrite Hne. apply IH.
  intros c' Hin. by apply Hno, list_elem_of_further.
Qed.

(** What the handler does once the token has passed its own checks:
    the flag is written first, the client is looked up afterwards. *)
Lemma redeem_after_token_checks (a : App) (env : Env) (urlPath : string)
    (w : World) (ts : list dlToken) (i : nat) (t : dlToken) :
  requestedToken urlPath <> "" -> loadTokens w = inr ts ->
  firstToken ts (requestedToken urlPath) i t ->
  Used t = false -> Now env 0 <= tok_ExpiresAt t ->
  handleDownloadToken a env "GET" urlPath w
  = match saveTokens env (<[i := set_Used true t]> ts) w with
    | (Some err, w') => (http_Error err 500, w')
    | (None, w') =>
        match findClientAndState w' (ClientID t) with
        | inl _ => (http_Error "not found" 404, w')
        | inr (c, st) =>
            if expired (Now env 1) c
            then (http_Error "expired" StatusGone, w')
            else ({| Status := StatusOK;
                     Payload := Text (renderClientConfig a w' c st) |}, w')
        end
    end.
Proof.
  intros Hne Hts Hfirst Hused Hexp.
  unfold handleDownloadToken. cbn [String.eqb Ascii.eqb Bool.eqb negb].
  fold (requestedToken urlPath).
  apply String.eqb_neq in Hne. rewrite Hne, Hts.
  rewrite (findToken_first ts _ i t 0 Hfirst).
  replace (0 + Z.of_nat i <? 0) with false by (symmetry; apply Z.ltb_ge; lia).
  replace (Z.to_nat (0 + Z.of_nat i)) with i by lia.
  destruct Hfirst as (-> & _ & _). rewrite Hused.
  unfold After. replace (tok_ExpiresAt t <? Now env 0) with false
    by (symmetry; apply Z.ltb_ge; lia).
  reflexivity.
Qed.

(** What the handler does when the token fails its own checks. *)
Lemma redeem_token_rejected (a : App) (env : Env) (urlPath : string)
    (w : World) (ts : list dlToken) :
  requestedToken urlPath <> "" -> loadTokens w = inr ts ->
  (noToken ts (requestedToken urlPath) ->
   handleDownloadToken a env "GET" urlPath w
   = (http_Error "not found" StatusNotFound, w)) /\
  (forall i t, firstToken ts (requestedToken urlPath) i t ->
     Used t = true \/ tok_ExpiresAt t < Now env 0 ->
     handleDownloadToken a env "GET" urlPath w
     = (http_Error "gone" StatusGone, w)).
Proof.
  intros Hne Hts. apply String.eqb_neq in Hne. split.
  - intros Hno. unfold handleDownloadToken.
    cbn [String.eqb Ascii.eqb Bool.eqb negb]. fold (requestedToken urlPath).
    rewrite Hne, Hts. by rewrite (findToken_noToken ts _ 0 Hno).
  - intros i t Hfirst Hbad. unfold handleDownloadToken.
    cbn [String.eqb Ascii.eqb Bool.eqb negb]. fold (requestedToken urlPath).
    rewrite Hne, Hts. rewrite (findToken_first ts _ i t 0 Hfirst).
    replace (0 + Z.of_nat i <? 0) with false by (symmetry; apply Z.ltb_ge; lia).
    replace (Z.to_nat (0 + Z.of_nat i)) with i by lia.
    destruct Hfirst as (-> & _ & _).
    destruct (Used t) eqn:Hu; [reflexivity|].
    destruct Hbad as [?|Hlt]; [discriminate|].
    unfold After. apply Z.ltb_lt in Hlt. by rewrite Hlt.
Qed.

Lemma findClientAndState_set_tokens (v : file (list dlToken)) (w : World)
    (id : string) :
  findClientAndState (set_tokens_json v w) id = findClientAndState w id.
Proof. reflexivity. Qed.

Lemma renderClientConfig_set_tokens (a : App) (v : file (list dlToken))
    (w : World) (c : client) (st : serverState) :
  renderClientConfig a (set_tokens_json v w) c st = renderClientConfig a w c st.
Proof. reflexivity. Qed.

Lemma expired_true (now : time) (c : client) :
  expired now c = true <-> exists e, ExpiresAt c = Some e /\ e < now.
Proof.
  unfold expired, After. destruct (ExpiresAt c) as [e|].
  - rewrite Z.ltb_lt. split; [by exists e|]. by intros (? & [= <-] & ?).
  - split; [discriminate|]. by intros (? & ? & _).
Qed.

Lemma expired_false (now : time) (c : client) :
  expired now c = false <-> forall e, ExpiresAt c = Some e -> now <= e.
Proof.
  rewrite <- not_true_iff_false, expired_true. split.
  - intros Hno e He. destruct (Z.le_gt_cases now e); [done|].
    exfalso. apply Hno. by exists e.
  - intros Hall (e & He & Hlt). specialize (Hall e He). lia.
Qed.

(** C1 as stated fails: the token of an expired client is marked used by
    a redemption that is refused with 410. *)
Lemma refused_redemption_marks_token :
  Status (fst (handleDownloadToken app0 env0 "GET" "/dl/tok-b" w1))
  = StatusGone /\
  tokens_json w1 = Stored [tok_alice; tok_bob; tok_carol] /\
  tokens_json (snd (handleDownloadToken app0 env0 "GET" "/dl/tok-b" w1))
  = Stored [tok_alice; set_Used true tok_bob; tok_carol].
Proof. vm_compute. repeat split. Qed.

(** C1 (amended): the flag goes from false to true on the request that
    finds the token, finds it unused and not past its expiry, and can
    write the token list; that write comes before the client is looked
    up.  A request whose token is unknown, used or expired changes
    nothing, and neither does one that is not a GET, names no token or
    finds the token list unreadable.  No request writes anything but the
    token list with that
    one flag set; when this write fails the answer is 500 and the token
    file is what the failed write leaves: the old list, the list with
    the flag set, or a file that is cut short. *)
Theorem token_marked_at_token_checks (a : App) (env : Env)
    (method urlPath : string) (w : World) :
  let tok := requestedToken urlPath in
  let r := handleDownloadToken a env method urlPath w in
  ((snd r = w /\ Status (fst r) <> StatusOK) \/
   (exists ts i t,
      loadTokens w = inr ts /\ firstToken ts tok i t /\
      Used t = false /\ Now env 0 <= tok_ExpiresAt t /\
      (snd r = set_tokens_json (Stored (<[i := set_Used true t]> ts)) w \/
       (WriteFileErr env TokensJson <> None /\
        Status (fst r) <> StatusOK /\
        snd r = set_tokens_json cutJSON w)))) /\
  (forall ts, loadTokens w = inr ts ->
     noToken ts tok \/
     (exists i t, firstToken ts tok i t /\
                  (Used t = true \/ tok_ExpiresAt t < Now env 0)) ->
     snd r = w) /\
  (method <> "GET" \/ tok = "" \/ (exists err, loadTokens w = inl err) ->
   snd r = w /\ Status (fst r) <> StatusOK) /\
  (forall ts i t,
     method = "GET" -> tok <> "" -> loadTokens w = inr ts ->
     firstToken ts tok i t -> Used t = false ->
     Now env 0 <= tok_ExpiresAt t -> WriteFileErr env TokensJson = None ->
     snd r = set_tokens_json (Stored (<[i := set_Used true t]> ts)) w) /\
  (forall ts i t err,
     method = "GET" -> tok <> "" -> loadTokens w = inr ts ->
     firstToken ts tok i t -> Used t = false ->
     Now env 0 <= tok_ExpiresAt t ->
     WriteFileErr env TokensJson = Some err ->
     fst r = http_Error err 500 /\
     snd r = match WriteFileLeaves env TokensJson with
             | Intact => w
             | Cut _ => set_tokens_json cutJSON w
             | Complete =>
                 set_tokens_json (Stored (<[i := set_Used true t]> ts)) w
             end).
Proof.
  cbn zeta.
  assert ((snd (handleDownloadToken a env method urlPath w) = w /\
           Status (fst (handleDownloadToken a env method urlPath w))
           <> StatusOK) \/
          (exists ts i t,
             loadTokens w = inr ts /\
             firstToken ts (requestedToken urlPath) i t /\
             Used t = false /\ Now env 0 <= tok_ExpiresAt t /\
             (snd (handleDownloadToken a env method urlPath w)
              = set_tokens_json (Stored (<[i := set_Used true t]> ts)) w \/
              (WriteFileErr env TokensJson <> None /\
               Status (fst (handleDownloadToken a env method urlPath w))
               <> StatusOK /\
               snd (handleDownloadToken a env method urlPath w)
               = set_tokens_json cutJSON w))))
    as Hshape.
  { unfold handleDownloadToken. fold (requestedToken urlPath).
    destruct (negb (String.eqb method "GET")); [by left|].
    destruct (String.eqb (requestedToken urlPath) ""); [by left|].
    destruct (loadTokens w) as [err|ts] eqn:Hts; [by left|].
    destruct (findToken_spec ts (requestedToken urlPath) 0)
      as [[-> _]|(i & t & -> & Hfirst)]; [by left|].
    replace (0 + Z.of_nat i <? 0) with false by (symmetry; apply Z.ltb_ge; lia).
    replace (Z.to_nat (0 + Z.of_nat i)) with i by lia.
    pose proof Hfirst as (Hl & _ & _). rewrite Hl.
    destruct (Used t) eqn:Hused; [by left|].
    destruct (After (Now env 0) (tok_ExpiresAt t)) eqn:Hexp; [by left|].
    unfold After in Hexp. apply Z.ltb_ge in Hexp.
    unfold saveTokens, WriteFile.
    destruct (WriteFileErr env TokensJson) as [err|] eqn:Hw.
    - destruct (WriteFileLeaves env TokensJson) as [|n|]; [by left| |].
      + right. exists ts, i, t.
        split; [reflexivity|]. split; [exact Hfirst|].
        split; [exact Hused|]. split; [exact Hexp|].
        right. split; [discriminate|]. by split.
      + right. exists ts, i, t.
        split; [reflexivity|]. split; [exact Hfirst|].
        split; [exact Hused|]. split; [exact Hexp|].
        by left.
    - right. exists ts, i, t.
      split; [reflexivity|]. split; [exact Hfirst|].
      split; [exact Hused|]. split; [exact Hexp|].
      left.
      destruct (findClientAndState _ _) as [?|[c st]]; [reflexivity|].
      by destruct (expired (Now env 1) c). }
  split; [exact Hshape|]. split; [|split; [|split]].
  - intros ts Hts Hbad.
    destruct Hshape as [[Hw _]|(ts' & i & t & Hts' & Hfirst & Hu & He & _)];
      [exact Hw|].
    rewrite Hts in Hts'. injection Hts' as <-. exfalso.
    destruct Hbad as [Hno|(i' & t' & Hfirst' & Hbad)].
    + by eapply firstToken_not_noToken.
    + destruct (firstToken_unique _ _ _ _ _ _ Hfirst Hfirst') as [_ <-].
      destruct Hbad; [congruence | lia].
  - unfold handleDownloadToken. fold (requestedToken urlPath).
    intros [Hm|[Ht|[err Hts]]].
    + apply String.eqb_neq in Hm. by rewrite Hm.
    + destruct (negb (String.eqb method "GET")); [done|].
      rewrite Ht. by rewrite String.eqb_refl.
    + destruct (negb (String.eqb method "GET")); [done|].
      destruct (String.eqb (requestedToken urlPath) ""); [done|].
      by rewrite Hts.
  - intros ts i t -> Hne Hts Hfirst Hu He Hw.
    rewrite (redeem_after_token_checks a env urlPath w ts i t Hne Hts Hfirst Hu He).
    unfold saveTokens, WriteFile. rewrite Hw.
    destruct (findClientAndState _ _) as [?|[c st]]; [reflexivity|].
    by destruct (expired (Now env 1) c).
  - intros ts i t err -> Hne Hts Hfirst Hu He Hw.
    rewrite (redeem_after_token_checks a env urlPath w ts i t Hne Hts Hfirst Hu He).
    unfold saveTokens, WriteFile. rewrite Hw.
    by destruct (WriteFileLeaves env TokensJson).
Qed.

Lemma firstToken_tok_bob :
  firstToken [tok_alice; tok_bob; tok_carol] "tok-b" 1 tok_bob.
Proof.
  split; [reflexivity|]. split; [reflexivity|].
  intros [|j] t' Hj Hl; [|lia]. injection Hl as <-. discriminate.
Qed.

Lemma firstToken_tok_alice :
  firstToken [tok_alice; tok_bob; tok_carol] "tok-a" 0 tok_alice.
Proof. split; [reflexivity|]. split; [reflexivity|]. lia. Qed.

Lemma token_marked_at_token_checks_witness :
  snd (handleDownloadToken app0 env0 "GET" "/dl/tok-b" w1)
  = set_tokens_json (Stored [tok_alice; set_Used true tok_bob; tok_carol]) w1
  /\
  (fst (handleDownloadToken app0 env_disk_full "GET" "/dl/tok-b" w1)
   = http_Error "write: no space left on device" 500 /\
   snd (handleDownloadToken app0 env_disk_full "GET" "/dl/tok-b" w1)
   = set_tokens_json cutJSON w1).
Proof.
  assert (requestedToken "/dl/tok-b" <> "") as Hne
    by (vm_compute; discriminate).
  assert (Now env0 0 <= tok_ExpiresAt tok_bob) as Hlive
    by (vm_compute; discriminate).
  split.
  - destruct (token_marked_at_token_checks app0 env0 "GET" "/dl/tok-b" w1)
      as (_ & _ & _ & Hmark & _).
    exact (Hmark [tok_alice; tok_bob; tok_carol] 1%nat tok_bob
             eq_refl Hne eq_refl firstToken_tok_bob eq_refl Hlive eq_refl).
  - destruct (token_marked_at_token_checks app0 env_disk_full "GET"
                "/dl/tok-b" w1) as (_ & _ & _ & _ & Hfail).
    exact (Hfail [tok_alice; tok_bob; tok_carol] 1%nat tok_bob
             "write: no space left on device"
             eq_refl Hne eq_refl firstToken_tok_bob eq_refl Hlive eq_refl).
Defined.

(** C2 as stated fails: redeeming the token of a client that has been
    deleted is answered 404, not 410. *)
Lemma deleted_client_redeems_not_found :
  findClient [alice; bob_expired] (ClientID tok_carol) = None /\
  fst (handleDownloadToken app0 env0 "GET" "/dl/tok-c" w1)
  = http_Error "not found" StatusNotFound /\
  Status (fst (handleDownloadToken app0 env0 "GET" "/dl/tok-c" w1))
  <> StatusGone.
Proof. vm_compute. repeat split. discriminate. Qed.

(** The token of a client that exists and has not expired, redeemed
    while server.json cannot be read: the answer is 404 and the token is
    used up. *)
Example unreadable_state_redeems_not_found :
  fst (handleDownloadToken app0 env0 "GET" "/dl/tok-a"
         (set_server_json cutJSON w1))
  = http_Error "not found" StatusNotFound /\
  tokens_json (snd (handleDownloadToken app0 env0 "GET" "/dl/tok-a"
                      (set_server_json cutJSON w1)))
  = Stored [set_Used true tok_alice; tok_bob; tok_carol].
Proof. vm_compute. split; reflexivity. Qed.

(** C2 (amended): a redemption request (GET, token not empty, token list
    readable and writable) is answered 404 when no token has that value
    and 410 when the token is used or past its expiry.  A token that
    passes these checks is answered 404 when the server state or the
    client list cannot be read, 404 when no stored client has the id of
    the token (the client has been deleted), 410 when that client has
    expired, and otherwise 200 with the rendered client configuration. *)
Theorem redemption_outcomes (a : App) (env : Env) (urlPath : string)
    (w : World) (ts : list dlToken) :
  let tok := requestedToken urlPath in
  let r := fst (handleDownloadToken a env "GET" urlPath w) in
  tok <> "" -> loadTokens w = inr ts -> WriteFileErr env TokensJson = None ->
  (noToken ts tok -> r = http_Error "not found" StatusNotFound) /\
  (forall i t, firstToken ts tok i t ->
     (Used t = true \/ tok_ExpiresAt t < Now env 0 ->
      r = http_Error "gone" StatusGone) /\
     (Used t = false -> Now env 0 <= tok_ExpiresAt t ->
      ((exists err, readServerState w = inl err) \/
       (exists err, loadClients w = inl err) ->
       r = http_Error "not found" StatusNotFound) /\
      (forall st cs, readServerState w = inr st -> loadClients w = inr cs ->
        ((forall c, c ∈ cs -> ID c <> ClientID t) ->
         r = http_Error "not found" StatusNotFound) /\
        (forall c, findClient cs (ClientID t) = Some c ->
           ((exists e, ExpiresAt c = Some e /\ e < Now env 1) ->
            r = http_Error "expired" StatusGone) /\
           ((forall e, ExpiresAt c = Some e -> Now env 1 <= e) ->
            r = {| Status := StatusOK;
                   Payload := Text (renderClientConfig a w c st) |}))))).
Proof.
  cbn zeta. intros Hne Hts Hw.
  destruct (redeem_token_rejected a env urlPath w ts Hne Hts) as [Hnone Hgone].
  split; [intros Hno; by rewrite Hnone|].
  intros i t Hfirst. split; [intros Hbad; by rewrite (Hgone i t)|].
  intros Hu He.
  rewrite (redeem_after_token_checks a env urlPath w ts i t Hne Hts Hfirst Hu He).
  unfold saveTokens, WriteFile. rewrite Hw.
  rewrite findClientAndState_set_tokens. unfold findClientAndState.
  split.
  - intros [[err Hst]|[err Hcs]].
    + by rewrite Hst.
    + rewrite Hcs. by destruct (readServerState w).
  - intros st cs Hst Hcs. rewrite Hst, Hcs. split.
    + intros Hdel. by rewrite (findClient_none cs _ Hdel).
    + intros c ->. split.
      * intros Hexp. apply expired_true in Hexp. by rewrite Hexp.
      * intros Hact. apply expired_false in Hact. by rewrite Hact.
Qed.

Lemma redemption_outcomes_witness :
  fst (handleDownloadToken app0 env0 "GET" "/dl/tok-a" w1)
  = {| Status := StatusOK;
       Payload := Text (renderClientConfig app0 w1 alice (set_NextHost 4 st0)) |}.
Proof.
  assert (requestedToken "/dl/tok-a" <> "") as Hne
    by (vm_compute; discriminate).
  destruct (redemption_outcomes app0 env0 "/dl/tok-a" w1
              [tok_alice; tok_bob; tok_carol] Hne eq_refl eq_refl)
    as [_ Hfound].
  destruct (Hfound 0%nat tok_alice firstToken_tok_alice) as [_ Hfresh].
  assert (Now env0 0 <= tok_ExpiresAt tok_alice) as Hlive
    by (vm_compute; discriminate).
  destruct (Hfresh eq_refl Hlive) as [_ Hreadable].
  destruct (Hreadable (set_NextHost 4 st0) [alice; bob_expired]
              eq_refl eq_refl) as [_ Hclient].
  destruct (Hclient alice eq_refl) as [_ Hok].
  apply Hok. intros e He. discriminate He.
Defined.

End Redemption.

(** ** More on the allocator *)

Section AllocatorOutcome.

Lemma set_NextHost_twice (n m : Z) (st : serverState) :
  set_NextHost n (set_NextHost m st) = set_NextHost n st.
Proof. reflexivity. Qed.

Lemma allocate_choice (st st' : serverState) (addr : string) :
  allocateNextAddress st = (inr addr, st') ->
  exists b,
    subnetBase (SubnetCIDR st) = Some b /\
    2 <= NextHost st <= 254 /\
    ((hostText b (NextHost st) <> ServerIP st /\
      addr = hostText b (NextHost st) +:+ "/32" /\
      st' = set_NextHost (NextHost st + 1) st) \/
     (hostText b (NextHost st) = ServerIP st /\
      addr = hostText b (NextHost st + 1) +:+ "/32" /\
      st' = set_NextHost (NextHost st + 2) st)).
Proof.
  unfold allocateNextAddress, subnetBase.
  destruct (net.ParseCIDR (SubnetCIDR st)) as [[ip ipnet]|]; [|discriminate].
  destruct (net.To4 (net.ipnet_IP ipnet))
    as [[|b0 [|b1 [|b2 [|b3 [|? ?]]]]]|]; try discriminate.
  destruct (negb _); [discriminate|].
  destruct (_ || _) eqn:Hrange; [discriminate|].
  apply orb_false_elim in Hrange as [Hlo Hhi].
  apply Z.ltb_ge in Hlo, Hhi.
  destruct (String.eqb _ (ServerIP st)) eqn:Hgw; intros [= <- <-];
    exists (b0, b1, b2); (split; [reflexivity|]); (split; [lia|]).
  - right. apply String.eqb_eq in Hgw.
    rewrite byte_of_int_small in Hgw by lia.
    cbn [NextHost set_NextHost].
    rewrite (wrap64_small (NextHost st + 1)) by lia.
    rewrite (byte_of_int_small (NextHost st + 1)) by lia.
    rewrite (wrap64_small (NextHost st + 1 + 1)) by lia.
    split; [exact Hgw|]. split; [reflexivity|].
    unfold set_NextHost; cbn. f_equal. lia.
  - left. apply String.eqb_neq in Hgw.
    rewrite byte_of_int_small in * by lia.
    rewrite (wrap64_small (NextHost st + 1)) by lia.
    split; [exact Hgw|]. split; reflexivity.
Qed.

(** X1: a failed allocation leaves the server state as it was; a
    successful one needs a cursor from 2 to 254, returns the host under
    the cursor and moves the cursor by one, unless that host is the
    gateway's address: then it returns the next host and moves the cursor
    by two. *)
Theorem allocator_outcome (st st' : serverState) (r : string + string) :
  allocateNextAddress st = (r, st') ->
  match r with
  | inl _ => st' = st
  | inr addr =>
      exists b,
        subnetBase (SubnetCIDR st) = Some b /\
        2 <= NextHost st <= 254 /\
        if decide (hostText b (NextHost st) = ServerIP st)
        then addr = hostText b (NextHost st + 1) +:+ "/32" /\
             st' = set_NextHost (NextHost st + 2) st
        else addr = hostText b (NextHost st) +:+ "/32" /\
             st' = set_NextHost (NextHost st + 1) st
  end.
Proof.
  destruct r as [err|addr]; intros H.
  - by apply allocate_err_state in H.
  - apply allocate_choice in H as (b & Hb & Hrange & Hcase).
    exists b. split; [exact Hb|]. split; [exact Hrange|].
    destruct Hcase as [(Hne & -> & ->)|(Heq & -> & ->)].
    + by rewrite decide_False.
    + by rewrite decide_True.
Qed.

Lemma allocator_outcome_witness :
  exists b,
    subnetBase (SubnetCIDR st_gw2) = Some b /\
    2 <= NextHost st_gw2 <= 254 /\
    if decide (hostText b (NextHost st_gw2) = ServerIP st_gw2)
    then "10.8.0.3/32" = hostText b (NextHost st_gw2 + 1) +:+ "/32" /\
         set_NextHost 4 st_gw2 = set_NextHost (NextHost st_gw2 + 2) st_gw2
    else "10.8.0.3/32" = hostText b (NextHost st_gw2) +:+ "/32" /\
         set_NextHost 4 st_gw2 = set_NextHost (NextHost st_gw2 + 1) st_gw2.
Proof.
  apply (allocator_outcome st_gw2 (set_NextHost 4 st_gw2) (inr "10.8.0.3/32")).
  vm_compute. reflexivity.
Defined.

Lemma allocateMany_cursor (n : nat) :
  forall (st st' : serverState) (addrs : list string),
  allocateMany (S n) st = Some (addrs, st') ->
  2 <= NextHost st /\ NextHost st' <= 256 /\
  (NextHost st' = 256 -> NextHost st + Z.of_nat (S n) + 1 <= 256).
Proof.
  induction n as [|n IH]; intros st st' addrs H.
  - simpl in H.
    destruct (allocateNextAddress st) as [[err|addr] st1] eqn:Halloc;
      [discriminate|].
    injection H as <- <-.
    apply allocate_choice in Halloc as (b & _ & Hr & [(_ & _ & ->)|(_ & _ & ->)]);
      cbn [NextHost set_NextHost]; lia.
  - change (allocateMany (S (S n)) st) with
      (match allocateNextAddress st with
       | (inr addr, st1) =>
           match allocateMany (S n) st1 with
           | Some (addrs, st2) => Some (addr :: addrs, st2)
           | None => None
           end
       | (inl _, _) => None
       end) in H.
    destruct (allocateNextAddress st) as [[err|addr] st1] eqn:Halloc;
      [discriminate|].
    destruct (allocateMany (S n) st1) as [[addrs' st2]|] eqn:Hrun;
      [|discriminate].
    injection H as <- <-.
    apply IH in Hrun as (Hlo & Hhi & Hfull).
    apply allocate_choice in Halloc as (b & _ & Hr & [(_ & _ & ->)|(_ & _ & ->)]);
      cbn [NextHost set_NextHost] in *; lia.
Qed.

(** X2: whatever the server state, at most 253 allocations in a row
    succeed: the pool of one /24 holds 253 client addresses. *)
Theorem pool_holds_253 (n : nat) (st st' : serverState)
    (addrs : list string) :
  allocateMany n st = Some (addrs, st') -> (n <= 253)%nat.
Proof.
  intros H. destruct n as [|n]; [lia|].
  pose proof (allocateMany_cursor n st st' addrs H) as (Hlo & Hhi & Hfull).
  apply allocateMany_inv in H as (_ & _ & Hcur & _).
  destruct (decide (NextHost st' = 256)) as [H256|]; [specialize (Hfull H256)|];
    lia.
Qed.

(** The bound is reached from a fresh state. *)
Example pool_holds_253_reached :
  (snd <$> allocateMany 253 st0) = Some (set_NextHost 255 st0) /\
  allocateMany 254 st0 = None.
Proof. vm_compute. split; reflexivity. Qed.

Lemma pool_holds_253_witness : (3 <= 253)%nat.
Proof.
  apply (pool_holds_253 3 st0 (set_NextHost 5 st0)
           ["10.8.0.2/32"; "10.8.0.3/32"; "10.8.0.4/32"]).
  vm_compute. reflexivity.
Defined.

End AllocatorOutcome.

(** ** Creating, listing and deleting clients *)

Section Clients.

Lemma renderServerConfig_spec (a : App) (st : serverState)
    (cs : list client) (now : time) :
  renderServerConfig a st cs now = spec_gatewayConfig a st cs now.
Proof.
  unfold renderServerConfig, spec_gatewayConfig, spec_interfaceSection.
  rewrite writePeers_blocks, append_nil_l. by rewrite !append_assoc.
Qed.


(** X3: the apply step writes the interface file first and runs
    [awg setconf] second.  When the write fails the command is not run:
    the live interface keeps what it had, and the interface file is
    what the failed write leaves (its old content, a beginning of the new
    configuration, or the new configuration).  When the command fails the
    file holds the new configuration while the live interface keeps the
    old one; when both succeed file and interface hold the rendered
    configuration.  The record files are never touched. *)
Theorem apply_step_outcomes (a : App) (env : Env) (now : time)
    (st : serverState) (cs : list client) (w : World) :
  let conf := spec_gatewayConfig a st cs now in
  let r := applyServerConfig a env now st cs w in
  (forall e, WriteFileErr env IfaceConf = Some e ->
     fst r = Some e /\
     live_conf (snd r) = live_conf w /\
     iface_conf (snd r)
     = match WriteFileLeaves env IfaceConf with
       | Intact => iface_conf w
       | Cut n => Some (String.substring 0 n conf)
       | Complete => Some conf
       end) /\
  (forall e, WriteFileErr env IfaceConf = None -> SetconfErr env = Some e ->
     r = (Some e, set_iface_conf (Some conf) w)) /\
  (WriteFileErr env IfaceConf = None -> SetconfErr env = None ->
     r = (None, set_live_conf (Some conf) (set_iface_conf (Some conf) w))) /\
  server_json (snd r) = server_json w /\
  clients_json (snd r) = clients_json w /\
  tokens_json (snd r) = tokens_json w.
Proof.
  cbn zeta. unfold applyServerConfig, WriteFile.
  rewrite renderServerConfig_spec.
  destruct (WriteFileErr env IfaceConf) as [e1|].
  - split; [|split; [|split]]; try (intros; congruence).
    + intros e [= <-]. by destruct (WriteFileLeaves env IfaceConf).
    + by destruct (WriteFileLeaves env IfaceConf).
  - destruct (SetconfErr env) as [e2|]; repeat split; try congruence;
      intros; congruence.
Qed.

Lemma apply_step_outcomes_witness :
  applyServerConfig app0 env_setconf_fails 1000 st0 [alice] w0
  = (Some "exit status 1",
     set_iface_conf (Some (spec_gatewayConfig app0 st0 [alice] 1000)) w0)
  /\
  (fst (applyServerConfig app0 env_disk_full 1000 st0 [alice] w0)
   = Some "write: no space left on device" /\
   live_conf (snd (applyServerConfig app0 env_disk_full 1000 st0 [alice] w0))
   = None /\
   iface_conf (snd (applyServerConfig app0 env_disk_full 1000 st0 [alice] w0))
   = Some "").
Proof.
  split.
  - destruct (apply_step_outcomes app0 env_setconf_fails 1000 st0 [alice] w0)
      as (_ & Hcmd & _).
    apply Hcmd; reflexivity.
  - destruct (apply_step_outcomes app0 env_disk_full 1000 st0 [alice] w0)
      as (Hwrite & _).
    exact (Hwrite "write: no space left on device" eq_refl).
Defined.

(** X4: [createClient] validates the request before it reads or writes
    anything: it answers 400 exactly when the body cannot be decoded, the
    trimmed name is empty or the expiry does not parse, and a 400 answer
    leaves every file as it was. *)
Theorem create_validates_first (a : App) (env : Env)
    (body : decoded createReq) (w : World) :
  let q := fst (Decode {| req_Name := ""; req_ExpiresAt := None |} body) in
  let r := createClient a env body w in
  (Status (fst r) = 400 <->
   (forall q', body <> Decoded q') \/
   strings.TrimSpace (req_Name q) = "" \/
   (exists err, requestedExpiry env q = inl err)) /\
  (Status (fst r) = 400 -> snd r = w).
Proof.
  cbn zeta. unfold createClient.
  destruct body as [q|err|err q]; cbn [Decode fst].
  - rewrite bool_decide_false by (intros H; by apply H).
    destruct (String.eqb (strings.TrimSpace (req_Name q)) "") eqn:Hname.
    { apply String.eqb_eq in Hname. cbn. split; [|done].
      split; [intros _; right; by left | done]. }
    apply String.eqb_neq in Hname.
    destruct (requestedExpiry env q) as [e|exp].
    { cbn. split; [|done]. split; [|done].
      intros _. right. right. by exists e. }
    assert (forall r : Response * World,
              Status (fst r) <> 400 ->
              (Status (fst r) = 400 <->
               (forall q' : createReq, Decoded q <> Decoded q') \/
               strings.TrimSpace (req_Name q) = "" \/
               (exists err : string, @inr string _ exp = inl err)) /\
              (Status (fst r) = 400 -> snd r = w)) as Hother.
    { intros r Hr. split; [|done]. split; [done|].
      intros [Hno|[?|[? ?]]]; [by destruct (Hno q) | done | discriminate]. }
    destruct (readServerState w); [by apply Hother|].
    destruct (loadClients w); [by apply Hother|].
    destruct (allocateNextAddress _) as [[?|addr] st']; [by apply Hother|].
    destruct (GeneratePrivateKey env) as [?|[priv pub]]; [by apply Hother|].
    destruct (saveClients _ _ _) as [[?|] w1]; [by apply Hother|].
    destruct (writeServerState _ _ _) as [[?|] w2]; [by apply Hother|].
    destruct (applyServerConfig _ _ _ _ _ _) as [[?|] w3]; by apply Hother.
  - rewrite bool_decide_true by done. cbn. split; [|done].
    split; [intros _; by left | done].
  - rewrite bool_decide_true by done. cbn. split; [|done].
    split; [intros _; by left | done].
Qed.

Lemma create_validates_first_witness :
  snd (createClient app0 env0
         (Decoded {| req_Name := "   "; req_ExpiresAt := None |}) w1) = w1.
Proof.
  destruct (create_validates_first app0 env0
              (Decoded {| req_Name := "   "; req_ExpiresAt := None |}) w1)
    as [_ Hsame].
  apply Hsame. vm_compute. reflexivity.
Defined.




(** X6: a client that was created shows up in the next listing: the
    listing is the previous one followed by the public view that the
    create request returned. *)
Theorem created_client_is_listed (a : App) (env env' : Env)
    (q : createReq) (body' : decoded createReq) (cs : list client)
    (c : clientPublic) (w : World) :
  loadClients w = inr cs ->
  fst (createClient a env (Decoded q) w)
  = {| Status := StatusOK; Payload := JSONClient c |} ->
  fst (handleClients a env' "GET" body' (snd (createClient a env (Decoded q) w)))
  = {| Status := StatusOK;
       Payload := JSONClients (map toPublic cs ++ [c]) |}.
Proof.
  intros Hcs. unfold createClient. cbn [Decode].
  rewrite bool_decide_false by (intros H; by apply H).
  destruct (String.eqb _ ""); [discriminate|].
  destruct (requestedExpiry env q); [discriminate|].
  destruct (readServerState w); [discriminate|].
  rewrite Hcs.
  destruct (allocateNextAddress _) as [[?|addr] st']; [discriminate|].
  destruct (GeneratePrivateKey env) as [?|[priv pub]]; [discriminate|].
  unfold saveClients, writeServerState, WriteFile.
  destruct (WriteFileErr env ClientsJson); [discriminate|].
  destruct (WriteFileErr env ServerJson); [discriminate|].
  unfold applyServerConfig, WriteFile.
  destruct (WriteFileErr env IfaceConf); [discriminate|].
  destruct (SetconfErr env); [discriminate|].
  cbn [fst snd]. intros [= <-].
  unfold handleClients. cbn [String.eqb Ascii.eqb Bool.eqb].
  unfold listClients, loadClients.
  cbn [clients_json set_live_conf set_iface_conf set_server_json
       set_clients_json fst].
  rewrite publicViews_map. cbn [app]. by rewrite map_app.
Qed.

Lemma created_client_is_listed_witness :
  fst (handleClients app0 env_next "GET" body_dave
         (snd (createClient app0 env0 body_alice w0)))
  = {| Status := StatusOK; Payload := JSONClients [toPublic alice] |}.
Proof.
  apply (created_client_is_listed app0 env0 env_next
           {| req_Name := "alice"; req_ExpiresAt := None |} body_dave []
           (toPublic alice) w0); vm_compute; reflexivity.
Defined.

End Clients.

(** ** Deleting clients; consistency of the records *)

Section Deletion.




(** What [deleteClient] can do to the record files. *)
Lemma deleteClient_store (a : App) (env : Env) (id : string) (w : World) :
  server_json (snd (deleteClient a env id w)) = server_json w /\
  tokens_json (snd (deleteClient a env id w)) = tokens_json w /\
  (clients_json (snd (deleteClient a env id w)) = clients_json w \/
   clients_json (snd (deleteClient a env id w)) = cutJSON \/
   exists cs, loadClients w = inr cs /\
     clients_json (snd (deleteClient a env id w))
     = Stored (filter (fun c => ID c <> id) cs)).
Proof.
  unfold deleteClient.
  destruct (readServerState w) as [?|st]; [by auto|].
  destruct (loadClients w) as [?|cs] eqn:Hcs; [by auto|].
  rewrite removeByID_filter. cbn [orb app].
  destruct (hasClient cs id); cbn [negb]; [|by auto].
  unfold saveClients, WriteFile.
  destruct (WriteFileErr env ClientsJson).
  { destruct (WriteFileLeaves env ClientsJson);
      (split; [reflexivity|]); (split; [reflexivity|]);
      [by left | right; by left | right; right; by exists cs]. }
  unfold applyServerConfig, WriteFile.
  destruct (WriteFileErr env IfaceConf);
    [destruct (WriteFileLeaves env IfaceConf) | destruct (SetconfErr env)];
    (split; [reflexivity|]); (split; [reflexivity|]);
    right; right; by exists cs.
Qed.


(** After a create that stored its client and then could not write
    server.json, the cursor is behind the stored address: once that
    client is deleted, the next create is handed its address. *)
Example deleted_address_comes_back_after_slip :
  let w := snd (createClient app0 env_state_unwritable body_alice w0) in
  loadClients w = inr [alice] /\
  Status (fst (deleteClient app0 env0 "id-a" w)) = StatusNoContent /\
  handedOut (snd (deleteClient app0 env0 "id-a" w)) = Some (Address alice).
Proof. vm_compute. repeat split. Qed.


Lemma consistent_w1 : consistent w1.
Proof.
  intros st cs [= <-] [= <-]. split.
  - cbn [map]. apply NoDup_cons. split; [|apply NoDup_singleton].
    intros H. apply elem_of_cons in H as [H|H]; [discriminate H|].
    by apply elem_of_nil in H.
  - repeat constructor.
    + exists (10, 8, 0), 2. by vm_compute.
    + exists (10, 8, 0), 3. by vm_compute.
Qed.




End Deletion.

(** ** The life of a one-time link *)

Section TokenLife.





Lemma issuance_frame (a : App) (env : Env) (body : decoded linkReq)
    (id : string) (w : World) :
  server_json (snd (createOneTimeLink a env body id w)) = server_json w /\
  clients_json (snd (createOneTimeLink a env body id w)) = clients_json w.
Proof.
  unfold createOneTimeLink. destruct (Decode _ body) as [q e].
  destruct (loadClients w) as [?|cs]; [by auto|].
  destruct (hasClient cs id); cbn [negb]; [|by auto].
  destruct (loadTokens w) as [?|ts]; [by auto|].
  unfold saveTokens, WriteFile.
  destruct (WriteFileErr env TokensJson); [|by auto].
  by destruct (WriteFileLeaves env TokensJson).
Qed.

Lemma redemption_frame (a : App) (env : Env) (method urlPath : string)
    (w : World) :
  server_json (snd (handleDownloadToken a env method urlPath w))
  = server_json w /\
  clients_json (snd (handleDownloadToken a env method urlPath w))
  = clients_json w.
Proof.
  unfold handleDownloadToken.
  destruct (negb _); [by auto|].
  destruct (String.eqb _ ""); [by auto|].
  destruct (loadTokens w) as [?|ts]; [by auto|].
  destruct (_ <? 0); [by auto|].
  destruct (ts !! _) as [t|]; [|by auto].
  destruct (Used t); [by auto|].
  destruct (After _ _); [by auto|].
  unfold saveTokens, WriteFile.
  destruct (WriteFileErr env TokensJson).
  { by destruct (WriteFileLeaves env TokensJson). }
  destruct (findClientAndState _ _) as [?|[c st]]; [by auto|].
  by destruct (expired _ c).
Qed.







(** X12: the configuration download by id changes nothing; with
    readable records it answers 404 when no client has the id, 410 when
    the first client with the id is expired at the time of the request,
    and otherwise 200 with the client configuration. *)
Theorem download_outcomes (a : App) (env : Env) (id : string) (w : World)
    (st : serverState) (cs : list client) :
  readServerState w = inr st -> loadClients w = inr cs ->
  snd (downloadConfig a env id w) = w /\
  ((forall c, c ∈ cs -> ID c <> id) ->
   fst (downloadConfig a env id w) = http_Error "not found" StatusNotFound) /\
  (forall c, findClient cs id = Some c ->
     ((exists e, ExpiresAt c = Some e /\ e < Now env 0) ->
      fst (downloadConfig a env id w) = http_Error "expired" StatusGone) /\
     ((forall e, ExpiresAt c = Some e -> Now env 0 <= e) ->
      fst (downloadConfig a env id w)
      = {| Status := StatusOK;
           Payload := Text (renderClientConfig a w c st) |})).
Proof.
  intros Hst Hcs. unfold downloadConfig, findClientAndState.
  rewrite Hst, Hcs. split; [|split].
  - destruct (findClient cs id) as [c|]; [|reflexivity].
    by destruct (expired (Now env 0) c).
  - intros Hno. by rewrite (findClient_none cs id Hno).
  - intros c ->. split.
    + intros Hexp. apply expired_true in Hexp. by rewrite Hexp.
    + intros Hact. apply expired_false in Hact. by rewrite Hact.
Qed.

Lemma download_outcomes_witness :
  fst (downloadConfig app0 env0 "id-b" w1) = http_Error "expired" StatusGone.
Proof.
  destruct (download_outcomes app0 env0 "id-b" w1 (set_NextHost 4 st0)
              [alice; bob_expired] eq_refl eq_refl) as (_ & _ & Hfound).
  destruct (Hfound bob_expired eq_refl) as [Hgone _].
  apply Hgone. exists 500. split; [reflexivity|]. vm_compute. reflexivity.
Defined.

End TokenLife.

(** ** Distinct addresses in the store *)

Section Consistency.

Lemma consistent_frame (w w' : World) :
  server_json w' = server_json w -> clients_json w' = clients_json w ->
  consistent w -> consistent w'.
Proof.
  intros Hs Hc Hw st cs. unfold readServerState, loadClients.
  rewrite Hs, Hc. apply Hw.
Qed.

Lemma NoDup_map_filter {A B : Type} (f : A -> B) (P : A -> Prop)
    `{!forall x, Decision (P x)} (l : list A) :
  NoDup (map f l) -> NoDup (map f (filter P l)).
Proof.
  induction l as [|x l IH]; [done|].
  cbn [map]. rewrite filter_cons. intros Hnd.
  apply NoDup_cons in Hnd as [Hx Hnd].
  destruct (decide (P x)); [|by apply IH].
  cbn [map]. apply NoDup_cons. split; [|by apply IH].
  intros Hin. apply Hx.
  apply list_elem_of_In, in_map_iff in Hin as (y & <- & Hy).
  apply list_elem_of_In, in_map_iff. exists y. split; [reflexivity|].
  apply list_elem_of_In. apply list_elem_of_In in Hy.
  by apply list_elem_of_filter in Hy as [_ ?].
Qed.

Lemma Forall_filter_keep {A : Type} (Q : A -> Prop) (P : A -> Prop)
    `{!forall x, Decision (P x)} (l : list A) :
  Forall Q l -> Forall Q (filter P l).
Proof.
  induction 1 as [|x l Hx Hl IH]; [constructor|].
  rewrite filter_cons. destruct (decide (P x)); [by constructor | exact IH].
Qed.

Lemma consistent_cut (w w' : World) :
  clients_json w' = cutJSON -> consistent w'.
Proof.
  intros Hc st cs _. unfold loadClients. rewrite Hc. discriminate.
Qed.

(** What [createClient] can do to the record files when server.json can
    be written and a failed write of clients.json does not leave the
    whole new list behind. *)
Lemma createClient_store (a : App) (env : Env) (body : decoded createReq)
    (w : World) :
  WriteFileErr env ServerJson = None ->
  (WriteFileErr env ClientsJson <> None ->
   WriteFileLeaves env ClientsJson <> Complete) ->
  snd (createClient a env body w) = w \/
  clients_json (snd (createClient a env body w)) = cutJSON \/
  exists st st' cs addr c,
    readServerState w = inr st /\ loadClients w = inr cs /\
    allocateNextAddress st = (inr addr, st') /\ Address c = addr /\
    server_json (snd (createClient a env body w)) = Stored st' /\
    clients_json (snd (createClient a env body w)) = Stored (cs ++ [c]).
Proof.
  intros Hws Hwc. unfold createClient.
  destruct (Decode _ body) as [q err].
  case_bool_decide; [by left|].
  destruct (String.eqb _ ""); [by left|].
  destruct (requestedExpiry env q) as [?|exp]; [by left|].
  destruct (readServerState w) as [?|st] eqn:Hst; [by left|].
  destruct (loadClients w) as [?|cs] eqn:Hcs; [by left|].
  destruct (allocateNextAddress st) as [[?|addr] st'] eqn:Halloc; [by left|].
  destruct (GeneratePrivateKey env) as [?|[priv pub]]; [by left|].
  unfold saveClients, writeServerState, WriteFile.
  destruct (WriteFileErr env ClientsJson) as [e|].
  { destruct (WriteFileLeaves env ClientsJson) as [|n|];
      [by left | right; by left | by destruct Hwc]. }
  rewrite Hws. right. right.
  exists st, st', cs, addr.
  eexists {| ID := _; Name := _; PublicKey := _; PrivKey := _;
             Address := addr; CreatedAt := _; ExpiresAt := _ |}.
  split; [reflexivity|]. split; [reflexivity|]. split; [exact Halloc|].
  split; [reflexivity|].
  unfold applyServerConfig, WriteFile.
  destruct (WriteFileErr env IfaceConf).
  { by destruct (WriteFileLeaves env IfaceConf). }
  destruct (SetconfErr env); by split.
Qed.

Lemma consistent_create (a : App) (env : Env) (body : decoded createReq)
    (w : World) :
  WriteFileErr env ServerJson = None ->
  (WriteFileErr env ClientsJson <> None ->
   WriteFileLeaves env ClientsJson <> Complete) ->
  consistent w ->
  consistent (snd (createClient a env body w)).
Proof.
  intros Hws Hwc Hw.
  destruct (createClient_store a env body w Hws Hwc)
    as [->|[Hcut|(st & st' & cs & addr & c & Hst & Hcs & Halloc & Hc & Hs' & Hc')]];
    [exact Hw | by apply (consistent_cut w) |].
  intros st2 cs2. unfold readServerState, loadClients. rewrite Hs', Hc'.
  intros [= <-] [= <-].
  destruct (Hw st cs Hst Hcs) as [Hnd Hall].
  apply allocate_ok in Halloc as (b & h & Hb & -> & Hr & Hh & _ & ->).
  cbn [SubnetCIDR NextHost set_NextHost]. split.
  - rewrite map_app. cbn [map]. apply NoDup_app. split; [exact Hnd|].
    split; [|apply NoDup_singleton].
    intros x Hx Hx1. apply list_elem_of_singleton in Hx1 as ->.
    apply list_elem_of_In, in_map_iff in Hx as (c' & Heq & Hin).
    rewrite Forall_forall in Hall. apply list_elem_of_In in Hin.
    destruct (Hall c' Hin) as (b' & h' & Hb' & Haddr & Hlt).
    rewrite Hb in Hb'. injection Hb' as <-.
    rewrite Hc, Haddr in Heq.
    apply append_inv_tail, hostText_inj in Heq. lia.
  - apply Forall_app. split.
    + eapply Forall_impl; [exact Hall|].
      intros c' (b' & h' & ? & ? & ?). exists b', h'.
      repeat split; auto; lia.
    + apply Forall_singleton. exists b, h. repeat split; auto; lia.
Qed.

Lemma consistent_delete (a : App) (env : Env) (id : string) (w : World) :
  consistent w -> consistent (snd (deleteClient a env id w)).
Proof.
  intros Hw.
  destruct (deleteClient_store a env id w)
    as (Hs & _ & [Hc|[Hc|(cs & Hcs & Hc)]]).
  - by apply (consistent_frame w).
  - by apply (consistent_cut w).
  - intros st cs2. unfold readServerState, loadClients. rewrite Hs, Hc.
    intros Hst [= <-].
    destruct (Hw st cs Hst Hcs) as [Hnd Hall]. split.
    + by apply NoDup_map_filter.
    + by apply Forall_filter_keep.
Qed.

(** A failed write of clients.json that nevertheless left the whole new
    list in the file puts a client into the store whose address the
    cursor on disk has not passed. *)
Example create_complete_but_failed_breaks_consistency :
  let env := {| Now := Now env0;
                WriteFileErr := fun p =>
                  match p with
                  | ClientsJson => Some "close /data/clients.json: input/output error"
                  | _ => None
                  end;
                WriteFileLeaves := fun _ => Complete;
                SetconfErr := None;
                GeneratePrivateKey := GeneratePrivateKey env0;
                RandID := RandID env0; RandToken := RandToken env0;
                ParseRFC3339 := ParseRFC3339 env0 |} in
  Status (fst (createClient app0 env body_alice w0)) = 500 /\
  loadClients (snd (createClient app0 env body_alice w0)) = inr [alice] /\
  handedOut (snd (createClient app0 env body_alice w0))
  = Some (Address alice).
Proof. vm_compute. repeat split. Qed.

(** X13: no request breaks the consistency of the records, as long as
    a create can write server.json and a failed write of clients.json
    does not leave the whole new list in the file: after a create, a
    delete, a link issuance or a redemption the stored clients, if they
    can be read, still have pairwise distinct addresses, all of the
    allocator's form and all below the stored cursor. *)
Theorem requests_keep_addresses_distinct (a : App) (env : Env) (w : World) :
  consistent w ->
  (forall body, WriteFileErr env ServerJson = None ->
     (WriteFileErr env ClientsJson <> None ->
      WriteFileLeaves env ClientsJson <> Complete) ->
     consistent (snd (createClient a env body w))) /\
  (forall id, consistent (snd (deleteClient a env id w))) /\
  (forall body id, consistent (snd (createOneTimeLink a env body id w))) /\
  (forall method urlPath,
     consistent (snd (handleDownloadToken a env method urlPath w))).
Proof.
  intros Hw. split; [|split; [|split]].
  - intros body Hws Hwc. by apply consistent_create.
  - intros id. by apply consistent_delete.
  - intros body id.
    destruct (issuance_frame a env body id w) as (Hs & Hc).
    by apply (consistent_frame w).
  - intros method urlPath.
    destruct (redemption_frame a env method urlPath w) as (Hs & Hc).
    by apply (consistent_frame w).
Qed.

Lemma consistent_w0 : consistent w0.
Proof.
  intros st cs [= <-] [= <-]. split; constructor.
Qed.

(** A third client created in the store of two, and the first of the
    three deleted afterwards. *)
Lemma requests_keep_addresses_distinct_witness :
  NoDup ["10.8.0.2/32"; "10.8.0.3/32"; "10.8.0.4/32"] /\
  consistent (snd (deleteClient app0 env0 "id-a"
                     (snd (createClient app0 env_next body_dave w1)))).
Proof.
  destruct (requests_keep_addresses_distinct app0 env_next w1 consistent_w1)
    as [Hcreate _].
  assert (consistent (snd (createClient app0 env_next body_dave w1)))
    as Hthree.
  { apply Hcreate; [reflexivity|]. intros H. by destruct H. }
  split.
  - destruct (Hthree (set_NextHost 5 st0)
                [alice; bob_expired;
                 {| ID := "id-d"; Name := "dave"; PublicKey := "pub-d";
                    PrivKey := "priv-d"; Address := "10.8.0.4/32";
                    CreatedAt := 2000; ExpiresAt := None |}])
      as [Hnd _]; [vm_compute; reflexivity | vm_compute; reflexivity |].
    exact Hnd.
  - destruct (requests_keep_addresses_distinct app0 env0 _ Hthree)
      as (_ & Hdelete & _).
    apply Hdelete.
Defined.

End Consistency.

(** ** Trimming *)

Section Trimming.

Lemma rev_app_rev_app (s a b : string) :
  String.rev_app (String.rev_app s a) b = String.rev_app a (s +:+ b).
Proof.
  revert a b. induction s as [|c s IH]; intros a b; [reflexivity|].
  cbn [String.rev_app]. rewrite IH. reflexivity.
Qed.

Lemma rev_involutive (s : string) : String.rev (String.rev s) = s.
Proof.
  unfold String.rev. rewrite rev_app_rev_app. cbn [String.rev_app].
  apply append_nil_r.
Qed.

Lemma rev_app_append (s acc : string) :
  String.rev_app s acc = String.rev s +:+ acc.
Proof.
  unfold String.rev. revert acc.
  induction s as [|c s IH]; intros acc; [reflexivity|].
  cbn [String.rev_app]. rewrite IH, (IH (String c "")).
  by rewrite append_assoc.
Qed.

Lemma rev_append (s1 s2 : string) :
  String.rev (s1 +:+ s2) = String.rev s2 +:+ String.rev s1.
Proof.
  induction s1 as [|c s1 IH].
  - rewrite append_nil_l. cbn. by rewrite append_nil_r.
  - rewrite append_cons. unfold String.rev at 1 3. cbn [String.rev_app].
    rewrite !rev_app_append, IH. by rewrite append_assoc.
Qed.

Lemma length_rev (s : string) : String.length (String.rev s) = String.length s.
Proof.
  induction s as [|c s IH]; [reflexivity|].
  unfold String.rev. cbn [String.rev_app]. rewrite rev_app_append.
  rewrite length_append, IH. simpl. lia.
Qed.

Lemma stripPrefix_Some (p s s' : string) :
  strings.stripPrefix p s = Some s' -> s = p +:+ s'.
Proof.
  revert s. induction p as [|c p IH]; intros s; simpl.
  - by intros [= ->].
  - destruct s as [|d s]; [discriminate|].
    destruct (Ascii.eqb_spec c d) as [->|]; [|discriminate].
    intros H. apply IH in H as ->. reflexivity.
Qed.

Lemma stripPrefix_append (p s : string) :
  strings.stripPrefix p (p +:+ s) = Some s.
Proof.
  induction p as [|c p IH]; [reflexivity|].
  rewrite append_cons. simpl. by rewrite Ascii.eqb_refl.
Qed.

Lemma stripPrefix_extend (p s s' y : string) :
  strings.stripPrefix p s = Some s' ->
  strings.stripPrefix p (s +:+ y) = Some (s' +:+ y).
Proof.
  intros H. apply stripPrefix_Some in H as ->.
  rewrite append_assoc. apply stripPrefix_append.
Qed.

Lemma stripAny_Some (ps : list string) (s s' : string) :
  strings.stripAny ps s = Some s' -> exists p, p ∈ ps /\ s = p +:+ s'.
Proof.
  induction ps as [|p ps IH]; simpl; [discriminate|].
  destruct (strings.stripPrefix p s) as [x|] eqn:Hp.
  - intros [= <-]. exists p. split; [apply list_elem_of_here|].
    by apply stripPrefix_Some.
  - intros H. apply IH in H as (p' & Hin & ->).
    exists p'. split; [by apply list_elem_of_further | reflexivity].
Qed.

Lemma stripAny_None_prefix (ps : list string) (s y : string) :
  strings.stripAny ps (s +:+ y) = None -> strings.stripAny ps s = None.
Proof.
  induction ps as [|p ps IH]; simpl; [done|].
  destruct (strings.stripPrefix p s) as [x|] eqn:Hp.
  - by rewrite (stripPrefix_extend p s x y Hp).
  - destruct (strings.stripPrefix p (s +:+ y)); [discriminate | exact IH].
Qed.

Lemma trimLeft_fixed (ps : list string) (fuel : nat) (s : string) :
  strings.stripAny ps s = None -> strings.trimLeft ps fuel s = s.
Proof. intros H. destruct fuel; [reflexivity|]. simpl. by rewrite H. Qed.

Lemma trimLeft_suffix (ps : list string) (fuel : nat) :
  forall s, exists pre, s = pre +:+ strings.trimLeft ps fuel s.
Proof.
  induction fuel as [|fuel IH]; intros s; simpl; [by exists ""|].
  destruct (strings.stripAny ps s) as [s'|] eqn:Hs; [|by exists ""].
  apply stripAny_Some in Hs as (p & _ & ->).
  destruct (IH s') as [pre Hpre]. exists (p +:+ pre).
  rewrite append_assoc. by rewrite <- Hpre.
Qed.

Lemma trimLeft_stuck (ps : list string) (fuel : nat) :
  Forall (fun p => p <> "") ps ->
  forall s, (String.length s <= fuel)%nat ->
  strings.stripAny ps (strings.trimLeft ps fuel s) = None.
Proof.
  intros Hps. induction fuel as [|fuel IH]; intros s Hlen.
  - destruct s; [|simpl in Hlen; lia]. simpl.
    clear Hlen. induction Hps as [|p ps Hp _ IHps]; [reflexivity|].
    simpl. destruct p; [done|]. exact IHps.
  - simpl. destruct (strings.stripAny ps s) as [s'|] eqn:Hs; [|exact Hs].
    apply IH. apply stripAny_Some in Hs as (p & Hin & ->).
    rewrite Forall_forall in Hps. specialize (Hps p Hin).
    rewrite length_append in Hlen. destruct p; [done|]. simpl in Hlen. lia.
Qed.

Lemma whiteSpace_nonempty : Forall (fun p => p <> "") strings.whiteSpace.
Proof. repeat constructor; discriminate. Qed.

Lemma whiteSpace_rev_nonempty :
  Forall (fun p => p <> "") (map String.rev strings.whiteSpace).
Proof. repeat constructor; discriminate. Qed.

(** The two ends of a trimmed text carry no white space. *)
Lemma TrimSpace_ends (s : string) :
  strings.stripAny strings.whiteSpace (strings.TrimSpace s) = None /\
  strings.stripAny (map String.rev strings.whiteSpace)
    (String.rev (strings.TrimSpace s)) = None.
Proof.
  unfold strings.TrimSpace.
  set (l := strings.trimLeft strings.whiteSpace (String.length s) s).
  set (r := strings.trimLeft (map String.rev strings.whiteSpace)
              (String.length l) (String.rev l)).
  assert (strings.stripAny strings.whiteSpace l = None) as Hl
    by (apply trimLeft_stuck; [apply whiteSpace_nonempty | lia]).
  assert (strings.stripAny (map String.rev strings.whiteSpace) r = None) as Hr
    by (apply trimLeft_stuck;
        [apply whiteSpace_rev_nonempty | rewrite length_rev; lia]).
  split; [|by rewrite rev_involutive].
  destruct (trimLeft_suffix (map String.rev strings.whiteSpace)
              (String.length l) (String.rev l)) as [pre Hpre].
  fold r in Hpre. apply (f_equal String.rev) in Hpre.
  rewrite rev_involutive, rev_append in Hpre.
  rewrite Hpre in Hl. by apply stripAny_None_prefix in Hl.
Qed.

Lemma TrimSpace_fixed (s : string) :
  strings.stripAny strings.whiteSpace s = None ->
  strings.stripAny (map String.rev strings.whiteSpace) (String.rev s) = None ->
  strings.TrimSpace s = s.
Proof.
  intros Hl Hr. unfold strings.TrimSpace.
  rewrite (trimLeft_fixed _ _ s Hl), (trimLeft_fixed _ _ _ Hr).
  apply rev_involutive.
Qed.

Lemma TrimSpace_idempotent (s : string) :
  strings.TrimSpace (strings.TrimSpace s) = strings.TrimSpace s.
Proof. apply TrimSpace_fixed; apply TrimSpace_ends. Qed.

End Trimming.

(** ** Routing, credentials, first start *)

Section Routing.

Lemma Split_nonempty (s : string) : strings_Split s <> [].
Proof.
  destruct s as [|c s]; simpl; [discriminate|].
  destruct (Ascii.eqb c "/"); [discriminate|].
  by destruct (strings_Split s).
Qed.

Lemma Split_head (s : string) :
  nth 0 (strings_Split s) "" = strings.beforeSlash s.
Proof.
  induction s as [|c s IH]; simpl; [reflexivity|].
  destruct (Ascii.eqb c "/"); [reflexivity|].
  pose proof (Split_nonempty s) as Hne.
  destruct (strings_Split s) as [|x xs]; [done|].
  simpl in *. by rewrite IH.
Qed.

(** Joining the pieces with slashes gives the text back. *)
Lemma concat_Split (s : string) : String.concat "/" (strings_Split s) = s.
Proof.
  induction s as [|c s IH]; simpl; [reflexivity|].
  pose proof (Split_nonempty s) as Hne.
  destruct (Ascii.eqb_spec c "/") as [->|Hc].
  - destruct (strings_Split s) as [|x xs]; [done|].
    change (String.concat "/" ("" :: x :: xs))
      with ("" +:+ "/" +:+ String.concat "/" (x :: xs)).
    by rewrite IH.
  - destruct (strings_Split s) as [|x xs]; [done|].
    destruct xs as [|y ys].
    + simpl in *. by rewrite IH.
    + change (String.concat "/" (String c x :: y :: ys))
        with (String c (x +:+ "/" +:+ String.concat "/" (y :: ys))).
      by rewrite <- IH.
Qed.

Lemma Split_noSlash (s : string) :
  noSlash s = true -> strings_Split s = [s].
Proof.
  induction s as [|c s IH]; simpl; [reflexivity|].
  intros H. apply andb_true_iff in H as [Hc Hs].
  apply negb_true_iff in Hc. rewrite Hc, (IH Hs). reflexivity.
Qed.

Lemma Split_segment (id rest : string) :
  noSlash id = true ->
  strings_Split (id +:+ "/" +:+ rest) = id :: strings_Split rest.
Proof.
  induction id as [|c id IH]; intros H.
  - reflexivity.
  - simpl in H. apply andb_true_iff in H as [Hc Hs].
    apply negb_true_iff in Hc. rewrite append_cons. simpl.
    rewrite Hc, (IH Hs). reflexivity.
Qed.

Lemma noSlash_beforeSlash (s : string) : noSlash (strings.beforeSlash s) = true.
Proof.
  induction s as [|c s IH]; simpl; [reflexivity|].
  destruct (Ascii.eqb c "/") eqn:Hc; [reflexivity|].
  simpl. by rewrite Hc, IH.
Qed.

Lemma beforeSlash_segment (id rest : string) :
  noSlash id = true -> strings.beforeSlash (id +:+ "/" +:+ rest) = id.
Proof.
  induction id as [|c id IH]; intros H; [reflexivity|].
  simpl in H. apply andb_true_iff in H as [Hc Hs].
  apply negb_true_iff in Hc. rewrite append_cons. simpl.
  by rewrite Hc, (IH Hs).
Qed.

Lemma TrimPrefix_append (p s : string) : strings.TrimPrefix (p +:+ s) p = s.
Proof. unfold strings.TrimPrefix. by rewrite stripPrefix_append. Qed.

Lemma Split_two (rest tail : string) :
  noSlash tail = true ->
  (length (strings_Split rest) =? 2)%nat
  && String.eqb (nth 1 (strings_Split rest) "") tail = true <->
  rest = strings.beforeSlash rest +:+ "/" +:+ tail.
Proof.
  intros Htail. split.
  - intros H. apply andb_true_iff in H as [Hlen Heq].
    apply Nat.eqb_eq in Hlen. apply String.eqb_eq in Heq.
    pose proof (Split_head rest) as Hhead.
    pose proof (concat_Split rest) as Hjoin.
    destruct (strings_Split rest) as [|x [|y [|z l]]]; try discriminate.
    simpl in Heq, Hhead. subst x y. by rewrite <- Hjoin at 1.
  - pose proof (noSlash_beforeSlash rest) as Hid.
    remember (strings.beforeSlash rest) as id eqn:Eid. clear Eid.
    intros ->. rewrite (Split_segment id tail Hid), (Split_noSlash tail Htail).
    cbn. apply String.eqb_refl.
Qed.

(** X14: below /api/clients/ the client id is the text up to the next
    slash.  An empty id is a bad request; GET .../{id}/config is the
    configuration download, POST .../{id}/link the link issuance; DELETE
    deletes the client named by the first segment whatever follows it;
    everything else is answered 404 without any change. *)
Theorem routes_below_clients (a : App) (env : Env) (method urlPath : string)
    (body : decoded linkReq) (w : World) :
  let rest := strings.TrimPrefix urlPath "/api/clients/" in
  let id := strings.beforeSlash rest in
  let r := handleClientByID a env method urlPath body w in
  (id = "" -> r = (http_Error "bad request" 400, w)) /\
  (id <> "" -> method = "GET" -> rest = id +:+ "/config" ->
   r = downloadConfig a env id w) /\
  (id <> "" -> method = "POST" -> rest = id +:+ "/link" ->
   r = createOneTimeLink a env body id w) /\
  (id <> "" -> method = "DELETE" -> r = deleteClient a env id w) /\
  (id <> "" -> method <> "DELETE" ->
   ~ (method = "GET" /\ rest = id +:+ "/config") ->
   ~ (method = "POST" /\ rest = id +:+ "/link") ->
   r = (http_Error "not found" StatusNotFound, w)).
Proof.
  cbn zeta. unfold handleClientByID.
  set (rest := strings.TrimPrefix urlPath "/api/clients/").
  rewrite !Split_head.
  assert ((length (strings_Split rest) =? 0)%nat = false) as ->.
  { apply Nat.eqb_neq. pose proof (Split_nonempty rest).
    by destruct (strings_Split rest). }
  cbn [orb].
  pose proof (Split_two rest "config" eq_refl) as Hconfig.
  pose proof (Split_two rest "link" eq_refl) as Hlink.
  change ("/" +:+ "config") with "/config" in Hconfig.
  change ("/" +:+ "link") with "/link" in Hlink.
  destruct ((length (strings_Split rest) =? 2)%nat
            && String.eqb (nth 1 (strings_Split rest) "") "config") eqn:Ec;
    destruct ((length (strings_Split rest) =? 2)%nat
              && String.eqb (nth 1 (strings_Split rest) "") "link") eqn:El.
  { (* both tails at once: impossible *)
    apply andb_true_iff in Ec as [_ Ec], El as [_ El].
    apply String.eqb_eq in Ec, El. rewrite Ec in El. discriminate. }
  all: split; [intros ->; reflexivity|].
  all: split; [intros Hid -> Hrest|].
  all: try (apply String.eqb_neq in Hid; rewrite Hid; cbn [andb String.eqb Ascii.eqb Bool.eqb]; try reflexivity).
  all: try (apply Hconfig in Hrest; discriminate).
  all: split; [intros Hid -> Hrest|].
  all: try (apply String.eqb_neq in Hid; rewrite Hid; cbn [andb String.eqb Ascii.eqb Bool.eqb]; try reflexivity).
  all: try (apply Hlink in Hrest; discriminate).
  all: split; [intros Hid ->|].
  all: try (apply String.eqb_neq in Hid; rewrite Hid; cbn [andb String.eqb Ascii.eqb Bool.eqb]; try reflexivity).
  all: intros Hid Hdel Hget Hpost.
  all: apply String.eqb_neq in Hid, Hdel; rewrite Hid, Hdel; cbn [andb].
  - destruct (String.eqb_spec method "GET") as [->|]; [|reflexivity].
    exfalso. apply Hget. split; [reflexivity|]. by apply Hconfig.
  - destruct (String.eqb_spec method "POST") as [->|]; [|reflexivity].
    exfalso. apply Hpost. split; [reflexivity|]. by apply Hlink.
  - reflexivity.
Qed.

Lemma routes_below_clients_witness :
  handleClientByID app0 env0 "DELETE" "/api/clients/id-a/config"
    (Decoded {| TTLSeconds := None |}) w1
  = deleteClient app0 env0 "id-a" w1.
Proof.
  destruct (routes_below_clients app0 env0 "DELETE" "/api/clients/id-a/config"
              (Decoded {| TTLSeconds := None |}) w1)
    as (_ & _ & _ & Hdelete & _).
  apply Hdelete; [vm_compute; discriminate | reflexivity].
Defined.

End Routing.

Section Credentials.

(** X15: the credential check lets a request through exactly when the
    Authorization value, with one leading "Bearer " removed if present
    and white space trimmed, equals the admin token; otherwise it answers
    401 and the handler does not run.  So the token after "Bearer " is
    accepted when the admin token has no white space at its ends, and an
    admin token that has white space at an end is matched by no request
    at all. *)
Theorem credential_check (adminToken : string)
    (h : World -> Response * World) (authorization : string) (w : World) :
  let got :=
    strings.TrimSpace (strings.TrimPrefix authorization "Bearer ") in
  (got = adminToken -> withAuth adminToken h authorization w = h w) /\
  (got <> adminToken ->
   withAuth adminToken h authorization w
   = (http_Error "unauthorized" StatusUnauthorized, w)) /\
  (strings.TrimSpace adminToken = adminToken ->
   withAuth adminToken h ("Bearer " +:+ adminToken) w = h w) /\
  (strings.TrimSpace adminToken <> adminToken ->
   forall authorization',
     withAuth adminToken h authorization' w
     = (http_Error "unauthorized" StatusUnauthorized, w)).
Proof.
  cbn zeta. unfold withAuth, subtle_ConstantTimeCompare.
  split; [|split; [|split]].
  - intros ->. by rewrite String.eqb_refl.
  - intros Hne. apply String.eqb_neq in Hne. by rewrite Hne.
  - intros Htrim. rewrite TrimPrefix_append, Htrim.
    by rewrite String.eqb_refl.
  - intros Htrim authorization'.
    destruct (String.eqb_spec
                (strings.TrimSpace
                   (strings.TrimPrefix authorization' "Bearer "))
                adminToken) as [Heq|]; [|reflexivity].
    exfalso. apply Htrim. rewrite <- Heq. apply TrimSpace_idempotent.
Qed.

Lemma credential_check_witness :
  withAuth "secret " listClients "Bearer secret " w1
  = (http_Error "unauthorized" StatusUnauthorized, w1).
Proof.
  destruct (credential_check "secret " listClients "" w1)
    as (_ & _ & _ & Hlocked).
  apply Hlocked. vm_compute. discriminate.
Defined.

End Credentials.

Section FirstStart.

(** X16: the server state is created once.  When server.json is there,
    [ensureServerState] returns without error and without touching
    anything, whatever its arguments and whatever the file holds.  When
    it is missing: if the subnet does not parse or does not contain the
    server address, or no key can be generated, an error is returned and
    nothing is written; otherwise server.json is written with the new
    keys, the subnet, the address and the cursor 2, and if that write
    fails its error is returned and the file is what the failed write
    leaves.  Once the file is there, every later start changes nothing:
    keys and cursor are kept, and so is a file that a failed write cut
    short. *)
Theorem server_state_created_once (inSubnet : string + bool) (env : Env)
    (subnetCIDR serverIP : string) (w : World) :
  let r := ensureServerState inSubnet env subnetCIDR serverIP w in
  let st priv pub :=
    {| ServerPrivateKey := priv; ServerPublicKey := pub;
       SubnetCIDR := subnetCIDR; ServerIP := serverIP; NextHost := 2 |} in
  (server_json w <> Absent -> r = (None, w)) /\
  (server_json w = Absent ->
   (inSubnet <> inr true -> fst r <> None /\ snd r = w) /\
   (forall err, inSubnet = inr true -> GeneratePrivateKey env = inl err ->
      r = (Some err, w)) /\
   (forall priv pub,
      inSubnet = inr true ->
      GeneratePrivateKey env = inr (priv, pub) ->
      WriteFileErr env ServerJson = None ->
      r = (None, set_server_json (Stored (st priv pub)) w)) /\
   (forall priv pub err,
      inSubnet = inr true ->
      GeneratePrivateKey env = inr (priv, pub) ->
      WriteFileErr env ServerJson = Some err ->
      r = (Some err,
           match WriteFileLeaves env ServerJson with
           | Intact => w
           | Cut _ => set_server_json cutJSON w
           | Complete => set_server_json (Stored (st priv pub)) w
           end))) /\
  (fst r = None -> server_json (snd r) <> Absent) /\
  (server_json (snd r) <> Absent ->
   forall inSubnet' env' subnetCIDR' serverIP',
     ensureServerState inSubnet' env' subnetCIDR' serverIP' (snd r)
     = (None, snd r)).
Proof.
  cbn zeta.
  assert (forall w' : World, server_json w' <> Absent ->
            forall inSubnet' env' subnetCIDR' serverIP',
              ensureServerState inSubnet' env' subnetCIDR' serverIP' w'
              = (None, w')) as Hkept.
  { intros w' Hw' inSubnet' env' subnetCIDR' serverIP'.
    unfold ensureServerState. by destruct (server_json w'). }
  split; [intros Hw; by apply Hkept|].
  split; [|split; [|intros Hw; by apply Hkept]].
  - intros Hfile. unfold ensureServerState, WriteFile. rewrite Hfile.
    split; [|split; [|split]].
    + by destruct inSubnet as [?|[]].
    + by intros err -> ->.
    + by intros priv pub -> -> ->.
    + by intros priv pub err -> -> ->.
  - unfold ensureServerState, WriteFile.
    destruct (server_json w) eqn:Hfile; cbn [snd]; try (by rewrite Hfile).
    destruct inSubnet as [?|[]]; try done.
    destruct (GeneratePrivateKey env) as [?|[priv pub]]; [done|].
    by destruct (WriteFileErr env ServerJson).
Qed.

(** A first start on a full disk leaves an empty server.json behind;
    the next start takes it for the state file, and every create is then
    answered 500. *)
Example cut_state_file_is_kept :
  let w := snd (ensureServerState (inr true) env_disk_full
                  "10.8.0.0/24" "10.8.0.1" w_empty) in
  server_json w = cutJSON /\
  ensureServerState (inr true) env0 "10.8.0.0/24" "10.8.0.1" w = (None, w) /\
  createClient app0 env0 body_alice w
  = (http_Error "unexpected end of JSON input" 500, w).
Proof. vm_compute. repeat split. Qed.

(** The subnet 10.8.0.0/24 contains 10.8.0.1; a later start with other
    arguments keeps the state of the first. *)
Lemma server_state_created_once_witness :
  ensureServerState (inr true) env0 "10.8.0.0/24" "10.8.0.1" w_empty
  = (None,
     set_server_json
       (Stored {| ServerPrivateKey := "priv-a"; ServerPublicKey := "pub-a";
                  SubnetCIDR := "10.8.0.0/24"; ServerIP := "10.8.0.1";
                  NextHost := 2 |}) w_empty) /\
  ensureServerState (inr true) env_next "10.9.0.0/24" "10.9.0.1" w_started
  = (None, w_started) /\
  ensureServerState (inr true) env_disk_full "10.8.0.0/24" "10.8.0.1" w_empty
  = (Some "write: no space left on device",
     set_server_json cutJSON w_empty).
Proof.
  destruct (server_state_created_once (inr true) env0
              "10.8.0.0/24" "10.8.0.1" w_empty) as (_ & Hnew & _).
  destruct (Hnew eq_refl) as (_ & _ & Hfresh & _).
  destruct (server_state_created_once (inr true) env_next
              "10.9.0.0/24" "10.9.0.1" w_started) as (Hkept & _).
  destruct (server_state_created_once (inr true) env_disk_full
              "10.8.0.0/24" "10.8.0.1" w_empty) as (_ & Hfull & _).
  destruct (Hfull eq_refl) as (_ & _ & _ & Hcut).
  split; [|split].
  - apply Hfresh; reflexivity.
  - apply Hkept. discriminate.
  - exact (Hcut "priv-a" "pub-a" "write: no space left on device"
             eq_refl eq_refl eq_refl).
Defined.

End FirstStart.

(** ** Generated identifiers and tokens *)

Section Generated.

Lemma encodeURL_char_safe (v : Z) :
  urlSafeChar (encodeURL_char (Z.land v 63)) = true.
Proof.
  change 63 with (Z.ones 6). rewrite Z.land_ones by lia.
  pose proof (Z.mod_pos_bound v (2 ^ 6) ltac:(lia)) as Hb.
  remember (v mod 2 ^ 6) as i eqn:Ei. clear Ei.
  assert (forallb (fun n => urlSafeChar (encodeURL_char (Z.of_nat n)))
            (seq 0 64) = true) as Hall by (vm_compute; reflexivity).
  rewrite forallb_forall in Hall.
  specialize (Hall (Z.to_nat i)). rewrite Z2Nat.id in Hall by lia.
  apply Hall. apply in_seq. lia.
Qed.

Lemma encode_urlSafe_upto (n : nat) :
  forall src, (length src <= n)%nat ->
  urlSafe (RawURLEncoding_EncodeToString src) = true.
Proof.
  induction n as [|n IH]; intros src Hlen.
  - destruct src; [reflexivity | simpl in Hlen; lia].
  - destruct src as [|b0 [|b1 [|b2 rest]]].
    + reflexivity.
    + cbn [RawURLEncoding_EncodeToString urlSafe].
      by rewrite !encodeURL_char_safe.
    + cbn [RawURLEncoding_EncodeToString urlSafe].
      by rewrite !encodeURL_char_safe.
    + cbn [RawURLEncoding_EncodeToString urlSafe].
      rewrite !encodeURL_char_safe. cbn [andb].
      apply IH. simpl in Hlen. lia.
Qed.

Lemma encode_urlSafe (src : list Z) :
  urlSafe (RawURLEncoding_EncodeToString src) = true.
Proof. by apply (encode_urlSafe_upto (length src)). Qed.

Lemma encode_length_upto (n : nat) :
  forall src, (length src <= n)%nat ->
  String.length (RawURLEncoding_EncodeToString src)
  = ((4 * length src + 2) / 3)%nat.
Proof.
  induction n as [|n IH]; intros src Hlen.
  - destruct src; [reflexivity | simpl in Hlen; lia].
  - destruct src as [|b0 [|b1 [|b2 rest]]]; try reflexivity.
    cbn [RawURLEncoding_EncodeToString String.length length].
    rewrite IH by (simpl in Hlen; lia).
    replace (4 * S (S (S (length rest))) + 2)%nat
      with (4 * length rest + 2 + 4 * 3)%nat by lia.
    rewrite Nat.div_add by lia. lia.
Qed.

Lemma urlSafeChar_not_space (c : ascii) (s : string) :
  urlSafeChar c = true ->
  strings.stripAny strings.whiteSpace (String c s) = None /\
  strings.stripAny (map String.rev strings.whiteSpace) (String c s) = None.
Proof.
  intros H.
  destruct c as [[] [] [] [] [] [] [] []]; vm_compute in H;
    try discriminate H; split; reflexivity.
Qed.

Lemma urlSafeChar_not_slash (c : ascii) :
  urlSafeChar c = true -> Ascii.eqb c "/" = false.
Proof.
  intros H.
  destruct c as [[] [] [] [] [] [] [] []]; vm_compute in H;
    try discriminate H; reflexivity.
Qed.

Lemma urlSafe_append (s1 s2 : string) :
  urlSafe (s1 +:+ s2) = urlSafe s1 && urlSafe s2.
Proof.
  induction s1 as [|c s1 IH]; [reflexivity|].
  rewrite append_cons. simpl. by rewrite IH, andb_assoc.
Qed.

Lemma urlSafe_rev (s : string) : urlSafe (String.rev s) = urlSafe s.
Proof.
  induction s as [|c s IH]; [reflexivity|].
  unfold String.rev. cbn [String.rev_app]. rewrite rev_app_append.
  rewrite urlSafe_append, IH. simpl. by rewrite andb_true_r, andb_comm.
Qed.

Lemma urlSafe_TrimSpace (s : string) :
  urlSafe s = true -> strings.TrimSpace s = s.
Proof.
  intros H. apply TrimSpace_fixed.
  - destruct s as [|c s]; [reflexivity|]. simpl in H.
    apply andb_true_iff in H as [Hc _].
    destruct (urlSafeChar_not_space c s Hc) as [Hleft _]. exact Hleft.
  - rewrite <- urlSafe_rev in H.
    destruct (String.rev s) as [|c r]; [reflexivity|]. simpl in H.
    apply andb_true_iff in H as [Hc _].
    destruct (urlSafeChar_not_space c r Hc) as [_ Hright]. exact Hright.
Qed.

Lemma urlSafe_noSlash (s : string) : urlSafe s = true -> noSlash s = true.
Proof.
  induction s as [|c s IH]; [reflexivity|]. simpl.
  intros H. apply andb_true_iff in H as [Hc Hs].
  by rewrite (urlSafeChar_not_slash c Hc), (IH Hs).
Qed.

Lemma encode_nonempty (src : list Z) :
  src <> [] -> RawURLEncoding_EncodeToString src <> "".
Proof. destruct src as [|b0 [|b1 [|b2 rest]]]; [done|..]; discriminate. Qed.

(** X17: a generated token is made of letters, digits, '-' and '_'
    only, four characters for every three random bytes and two or three
    for a rest of one or two.  So it is not empty, and the path /dl/<token>
    handed to the caller names exactly this token when it comes back in a
    redemption request; 32 random bytes give 43 characters. *)
Theorem token_survives_the_path (buf : list Z) :
  buf <> [] ->
  urlSafe (randomToken buf) = true /\
  String.length (randomToken buf) = ((4 * length buf + 2) / 3)%nat /\
  randomToken buf <> "" /\
  requestedToken ("/dl/" +:+ randomToken buf) = randomToken buf /\
  (length buf = 32%nat -> String.length (randomToken buf) = 43%nat).
Proof.
  intros Hne. unfold randomToken.
  pose proof (encode_urlSafe buf) as Hsafe.
  pose proof (encode_length_upto (length buf) buf (le_n _)) as Hlen.
  split; [exact Hsafe|]. split; [exact Hlen|].
  split; [by apply encode_nonempty|]. split.
  - unfold requestedToken. rewrite TrimPrefix_append.
    by apply urlSafe_TrimSpace.
  - intros H32. rewrite Hlen, H32. reflexivity.
Qed.

Lemma token_survives_the_path_witness :
  requestedToken ("/dl/" +:+ randomToken [0; 1; 2; 255; 254; 253; 77])
  = "AAEC__79TQ".
Proof.
  destruct (token_survives_the_path [0; 1; 2; 255; 254; 253; 77])
    as (_ & _ & _ & Hpath & _); [discriminate|].
  rewrite Hpath. vm_compute. reflexivity.
Defined.

(** X18: a generated client id holds no slash and is not empty, so the
    paths built from it reach the handlers with exactly this id:
    GET /api/clients/<id>/config the download, POST /api/clients/<id>/link
    the issuance, DELETE /api/clients/<id> the deletion. *)
Theorem generated_id_routes (a : App) (env : Env) (buf : list Z)
    (body : decoded linkReq) (w : World) :
  buf <> [] ->
  let id := makeID buf in
  handleClientByID a env "GET" ("/api/clients/" +:+ id +:+ "/config") body w
  = downloadConfig a env id w /\
  handleClientByID a env "POST" ("/api/clients/" +:+ id +:+ "/link") body w
  = createOneTimeLink a env body id w /\
  handleClientByID a env "DELETE" ("/api/clients/" +:+ id) body w
  = deleteClient a env id w.
Proof.
  intros Hne. cbn zeta. unfold makeID.
  pose proof (urlSafe_noSlash _ (encode_urlSafe buf)) as Hns.
  pose proof (encode_nonempty buf Hne) as Hid.
  remember (RawURLEncoding_EncodeToString buf) as id eqn:Eid. clear Eid.
  apply String.eqb_neq in Hid.
  unfold handleClientByID. rewrite !TrimPrefix_append.
  change "/config" with ("/" +:+ "config").
  change "/link" with ("/" +:+ "link").
  rewrite !(Split_segment id _ Hns), (Split_noSlash id Hns).
  change (strings_Split "config") with ["config"].
  change (strings_Split "link") with ["link"].
  cbn [nth length Nat.eqb orb]. rewrite Hid.
  repeat split; reflexivity.
Qed.

Lemma generated_id_routes_witness :
  handleClientByID app0 env0 "DELETE" "/api/clients/AAEC__79TQ"
    (Decoded {| TTLSeconds := None |}) w1
  = deleteClient app0 env0 "AAEC__79TQ" w1.
Proof.
  destruct (generated_id_routes app0 env0 [0; 1; 2; 255; 254; 253; 77]
              (Decoded {| TTLSeconds := None |}) w1)
    as (_ & _ & Hdelete); [discriminate|].
  exact Hdelete.
Defined.

End Generated.

(** ** File names *)

Section FileNames.

Lemma byteOf_charOf (b : Z) : 0 <= b < 256 -> byteOf (charOf b) = b.
Proof.
  intros H. unfold byteOf, charOf.
  rewrite nat_ascii_embedding by lia. lia.
Qed.

Lemma charOf_byteOf (c : ascii) : charOf (byteOf c) = c.
Proof.
  unfold byteOf, charOf. rewrite Nat2Z.id. apply ascii_nat_embedding.
Qed.

Lemma byteOf_bound (c : ascii) : 0 <= byteOf c < 256.
Proof. unfold byteOf. pose proof (nat_ascii_bounded c). lia. Qed.

Lemma keepFileRune_safe (r : Z) :
  0 <= keepFileRune r <= 127 /\ fileSafeChar (charOf (keepFileRune r)) = true.
Proof.
  unfold keepFileRune.
  destruct ((97 <=? r) && (r <=? 122) || (48 <=? r) && (r <=? 57)
            || (r =? 45) || (r =? 95)) eqn:Hin.
  - assert (0 <= r <= 127) as Hr.
    { repeat (apply orb_true_iff in Hin as [Hin|Hin]);
        try apply andb_true_iff in Hin as [? ?]; lia. }
    split; [exact Hr|]. unfold fileSafeChar.
    rewrite byteOf_charOf by lia. exact Hin.
  - split; [lia | reflexivity].
Qed.

Lemma keepFileRune_fixed (c : ascii) :
  fileSafeChar c = true -> keepFileRune (byteOf c) = byteOf c.
Proof. unfold fileSafeChar, keepFileRune. cbn zeta. by intros ->. Qed.

Lemma fileSafe_append (s1 s2 : string) :
  fileSafe (s1 +:+ s2) = fileSafe s1 && fileSafe s2.
Proof.
  induction s1 as [|c s1 IH]; [reflexivity|].
  rewrite append_cons. simpl. by rewrite IH, andb_assoc.
Qed.

Lemma fileSafe_rev (s : string) : fileSafe (String.rev s) = fileSafe s.
Proof.
  induction s as [|c s IH]; [reflexivity|].
  unfold String.rev. cbn [String.rev_app]. rewrite rev_app_append.
  rewrite fileSafe_append, IH. simpl. by rewrite andb_true_r, andb_comm.
Qed.

Lemma encode_keep (r : Z) :
  (if 0 <=? keepFileRune r then utf8_EncodeRune (keepFileRune r) else "")
  = String (charOf (keepFileRune r)) "".
Proof.
  destruct (keepFileRune_safe r) as [Hr _]. unfold utf8_EncodeRune.
  replace (0 <=? keepFileRune r) with true by (symmetry; apply Z.leb_le; lia).
  replace (keepFileRune r <=? 127) with true
    by (symmetry; apply Z.leb_le; lia).
  reflexivity.
Qed.

Lemma Map_keep_safe (fuel : nat) :
  forall s, fileSafe (strings_Map keepFileRune fuel s) = true.
Proof.
  induction fuel as [|fuel IH]; intros s; [reflexivity|].
  destruct s as [|c0 s]; [reflexivity|].
  cbn [strings_Map].
  destruct (utf8_DecodeRuneInString (String c0 s)) as [c width].
  rewrite encode_keep, append_cons, append_nil_l. cbn [fileSafe].
  destruct (keepFileRune_safe c) as [_ ->]. apply IH.
Qed.

Lemma trimLeftByte_safe (c : ascii) (s : string) :
  fileSafe s = true -> fileSafe (trimLeftByte c s) = true.
Proof.
  induction s as [|d s IH]; [done|]. cbn [trimLeftByte].
  destruct (Ascii.eqb d c); [|done].
  intros H. simpl in H. apply andb_true_iff in H as [_ H]. by apply IH.
Qed.

Lemma trimLeftByte_head (s : string) :
  startsWithDash (trimLeftByte "-" s) = false.
Proof.
  induction s as [|d s IH]; [reflexivity|]. cbn [trimLeftByte].
  destruct (Ascii.eqb d "-") eqn:Hd; [exact IH | exact Hd].
Qed.

Lemma trimLeftByte_suffix (c : ascii) (s : string) :
  exists pre, s = pre +:+ trimLeftByte c s.
Proof.
  induction s as [|d s [pre IH]]; [by exists ""|]. cbn [trimLeftByte].
  destruct (Ascii.eqb d c); [|by exists ""].
  exists (String d pre). rewrite append_cons. by rewrite <- IH.
Qed.

Lemma trimLeftByte_fixed (s : string) :
  startsWithDash s = false -> trimLeftByte "-" s = s.
Proof. destruct s as [|d s]; [done|]. simpl. by intros ->. Qed.

Lemma startsWithDash_append (s1 s2 : string) :
  s1 <> "" -> startsWithDash (s1 +:+ s2) = startsWithDash s1.
Proof. destruct s1; [done | reflexivity]. Qed.

Lemma Trim_dash_ends (s : string) :
  startsWithDash (strings_Trim_dash s) = false /\
  endsWithDash (strings_Trim_dash s) = false.
Proof.
  unfold strings_Trim_dash, endsWithDash.
  set (x := trimLeftByte "-" (String.rev s)).
  split; [apply trimLeftByte_head|].
  destruct (trimLeftByte_suffix "-" (String.rev x)) as [pre Hpre].
  apply (f_equal String.rev) in Hpre.
  rewrite rev_involutive, rev_append in Hpre.
  destruct (String.rev (trimLeftByte "-" (String.rev x))) as [|d r] eqn:Hr;
    [reflexivity|].
  pose proof (trimLeftByte_head (String.rev s)) as Hx. fold x in Hx.
  rewrite Hpre, startsWithDash_append in Hx by discriminate. exact Hx.
Qed.

Lemma fileSafeChar_plain (c : ascii) (s : string) :
  fileSafeChar c = true ->
  strings.stripAny strings.whiteSpace (String c s) = None /\
  strings.stripAny (map String.rev strings.whiteSpace) (String c s) = None /\
  (byteOf c <? 128) = true /\ isUpperByte c = false.
Proof.
  intros H.
  destruct c as [[] [] [] [] [] [] [] []]; vm_compute in H;
    try discriminate H; repeat split; reflexivity.
Qed.

Lemma fileSafe_TrimSpace (s : string) :
  fileSafe s = true -> strings.TrimSpace s = s.
Proof.
  intros H. apply TrimSpace_fixed.
  - destruct s as [|c s]; [reflexivity|]. simpl in H.
    apply andb_true_iff in H as [Hc _].
    destruct (fileSafeChar_plain c s Hc) as (Hl & _). exact Hl.
  - rewrite <- fileSafe_rev in H.
    destruct (String.rev s) as [|c r]; [reflexivity|]. simpl in H.
    apply andb_true_iff in H as [Hc _].
    destruct (fileSafeChar_plain c r Hc) as (_ & Hr & _). exact Hr.
Qed.

Lemma fileSafe_ToLower (f : Z -> Z) (s : string) :
  fileSafe s = true -> strings_ToLower f s = s.
Proof.
  intros H. unfold strings_ToLower.
  assert (isASCII s = true /\ lowerBytes s = s) as [-> ->]; [|reflexivity].
  induction s as [|c s IH]; [done|]. simpl in H.
  apply andb_true_iff in H as [Hc Hs].
  destruct (fileSafeChar_plain c "" Hc) as (_ & _ & Ha & Hu).
  destruct (IH Hs) as [IH1 IH2]. simpl. by rewrite Ha, Hu, IH1, IH2.
Qed.

Lemma fileSafe_Map (s : string) :
  forall fuel, (String.length s <= fuel)%nat -> fileSafe s = true ->
  strings_Map keepFileRune fuel s = s.
Proof.
  induction s as [|c s IH]; intros fuel Hlen H.
  - by destruct fuel.
  - destruct fuel as [|fuel]; [simpl in Hlen; lia|].
    simpl in H. apply andb_true_iff in H as [Hc Hs].
    destruct (fileSafeChar_plain c "" Hc) as (_ & _ & Ha & _).
    cbn [strings_Map utf8_DecodeRuneInString]. rewrite Ha.
    rewrite encode_keep, (keepFileRune_fixed c Hc), charOf_byteOf.
    cbn [dropBytes]. rewrite append_cons, append_nil_l.
    f_equal. apply IH; [simpl in Hlen; lia | exact Hs].
Qed.

Lemma sanitize_fixed (f : Z -> Z) (s : string) :
  fileSafe s = true -> startsWithDash s = false -> endsWithDash s = false ->
  sanitize f s = s.
Proof.
  intros Hs Hl Hr. unfold sanitize.
  rewrite (fileSafe_TrimSpace s Hs), (fileSafe_ToLower f s Hs).
  rewrite (fileSafe_Map s _ (le_n _) Hs).
  unfold strings_Trim_dash. unfold endsWithDash in Hr.
  rewrite (trimLeftByte_fixed _ Hr), rev_involutive.
  by apply trimLeftByte_fixed.
Qed.

(** X19: whatever the name and whatever the case table, the file name
    [sanitize] produces consists of lower-case letters, digits, '-' and
    '_' only and neither starts nor ends with '-'; such a name is left
    as it is, so sanitizing twice is sanitizing once. *)
Theorem sanitized_name_is_safe (unicode_ToLower : Z -> Z) (s : string) :
  fileSafe (sanitize unicode_ToLower s) = true /\
  startsWithDash (sanitize unicode_ToLower s) = false /\
  endsWithDash (sanitize unicode_ToLower s) = false /\
  sanitize unicode_ToLower (sanitize unicode_ToLower s)
  = sanitize unicode_ToLower s.
Proof.
  assert (fileSafe (sanitize unicode_ToLower s) = true) as Hsafe.
  { unfold sanitize, strings_Trim_dash.
    apply trimLeftByte_safe. rewrite fileSafe_rev.
    apply trimLeftByte_safe. rewrite fileSafe_rev. apply Map_keep_safe. }
  pose proof (Trim_dash_ends
                (strings_Map keepFileRune
                   (String.length
                      (strings_ToLower unicode_ToLower (strings.TrimSpace s)))
                   (strings_ToLower unicode_ToLower (strings.TrimSpace s))))
    as [Hl Hr].
  change (startsWithDash (sanitize unicode_ToLower s) = false) in Hl.
  change (endsWithDash (sanitize unicode_ToLower s) = false) in Hr.
  repeat split; auto. by apply sanitize_fixed.
Qed.

Example sanitize_examples :
  sanitize lowerASCII "  My Phone (work).conf -- " = "my-phone--work--conf" /\
  sanitize lowerASCII "***" = "".
Proof. vm_compute. split; reflexivity. Qed.

End FileNames.

(** ** From the allocator to the gateway configuration *)

Section PeerAddress.

Lemma pretty_N_char_noSlash (x : N) :
  Ascii.eqb (pretty_N_char x) "/" = false.
Proof. unfold pretty_N_char. by repeat case_match. Qed.

Lemma pretty_N_go_noSlash (x : N) :
  forall s, noSlash s = true -> noSlash (pretty_N_go x s) = true.
Proof.
  induction (N.lt_wf_0 x) as [x _ IH]; intros s Hs.
  destruct (decide (x = 0)%N) as [->|Hx].
  - by rewrite pretty_N_go_0.
  - rewrite pretty_N_go_step by lia. apply IH.
    + apply N.div_lt; lia.
    + simpl. by rewrite pretty_N_char_noSlash.
Qed.

Lemma pretty_Z_noSlash (z : Z) : noSlash (pretty z) = true.
Proof.
  destruct z as [|p|p]; [reflexivity| |].
  - change (noSlash (pretty (N.pos p)) = true).
    unfold pretty, pretty_N. rewrite decide_False by lia.
    by apply pretty_N_go_noSlash.
  - change (noSlash ("-" +:+ pretty (N.pos p)) = true).
    rewrite append_cons, append_nil_l. simpl.
    unfold pretty, pretty_N. rewrite decide_False by lia.
    by apply pretty_N_go_noSlash.
Qed.

Lemma noSlash_append (s1 s2 : string) :
  noSlash (s1 +:+ s2) = noSlash s1 && noSlash s2.
Proof.
  induction s1 as [|c s1 IH]; [reflexivity|].
  rewrite append_cons. simpl. by rewrite IH, andb_assoc.
Qed.

Lemma hostText_noSlash (b : Z * Z * Z) (h : Z) : noSlash (hostText b h) = true.
Proof.
  destruct b as [[b0 b1] b2]. unfold hostText. rewrite IPString_IPv4.
  rewrite !noSlash_append, !pretty_Z_noSlash. reflexivity.
Qed.

(** X20: the address the allocator hands out goes into the gateway
    configuration unchanged: for a client that carries an allocated
    address, the AllowedIPs line of its peer block is that address. *)
Theorem allocated_address_is_peer_address (st st' : serverState)
    (c : client) :
  allocateNextAddress st = (inr (Address c), st') ->
  spec_peerBlock c
  = "[Peer]" +:+ nl +:+ "PublicKey = " +:+ PublicKey c +:+ nl +:+
    "AllowedIPs = " +:+ Address c +:+ nl +:+ nl /\
  forall (a : App) (now : time),
    expired now c = false ->
    renderServerConfig a st' [c] now
    = spec_interfaceSection a st' +:+
      "[Peer]" +:+ nl +:+ "PublicKey = " +:+ PublicKey c +:+ nl +:+
      "AllowedIPs = " +:+ Address c +:+ nl +:+ nl.
Proof.
  intros Halloc.
  apply allocate_ok in Halloc as (b & h & _ & Haddr & _).
  assert (strings.beforeSlash (Address c) +:+ "/32" = Address c) as Hcut.
  { rewrite Haddr. change "/32" with ("/" +:+ "32").
    by rewrite (beforeSlash_segment _ "32" (hostText_noSlash b h)). }
  assert (spec_peerBlock c
          = "[Peer]" +:+ nl +:+ "PublicKey = " +:+ PublicKey c +:+ nl +:+
            "AllowedIPs = " +:+ Address c +:+ nl +:+ nl) as Hblock.
  { unfold spec_peerBlock. rewrite <- Hcut at 2.
    by rewrite !append_assoc. }
  split; [exact Hblock|].
  intros a now Hact. rewrite renderServerConfig_spec.
  unfold spec_gatewayConfig. rewrite filter_cons, decide_True
    by (intros Hs; apply expired_iff_spec in Hs; congruence).
  rewrite filter_nil. cbn [map String.concat]. by rewrite Hblock.
Qed.

Lemma allocated_address_is_peer_address_witness :
  spec_peerBlock alice
  = "[Peer]" +:+ nl +:+ "PublicKey = " +:+ PublicKey alice +:+ nl +:+
    "AllowedIPs = " +:+ Address alice +:+ nl +:+ nl.
Proof.
  destruct (allocated_address_is_peer_address st0 (set_NextHost 3 st0) alice)
    as [Hblock _]; [vm_compute; reflexivity | exact Hblock].
Defined.

End PeerAddress.

(** ** Tokens are never taken back *)

Section TokenHistory.

Lemma tokensKept_refl (ts : list dlToken) : tokensKept ts ts.
Proof. intros i t H. exists t. by repeat split. Qed.

Lemma tokensKeptIn_same_file (w w' : World) :
  tokens_json w' = tokens_json w -> tokensKeptIn w w'.
Proof.
  intros H ts. unfold loadTokens. rewrite H. intros Hts.
  exists ts. split; [exact Hts | apply tokensKept_refl].
Qed.

Lemma createClient_tokens (a : App) (env : Env) (body : decoded createReq)
    (w : World) :
  tokens_json (snd (createClient a env body w)) = tokens_json w.
Proof.
  unfold createClient.
  destruct (Decode _ body) as [q err].
  case_bool_decide; [done|].
  destruct (String.eqb _ ""); [done|].
  destruct (requestedExpiry env q); [done|].
  destruct (readServerState w); [done|].
  destruct (loadClients w); [done|].
  destruct (allocateNextAddress _) as [[?|addr] st']; [done|].
  destruct (GeneratePrivateKey env) as [?|[priv pub]]; [done|].
  unfold saveClients, writeServerState, WriteFile.
  destruct (WriteFileErr env ClientsJson);
    [by destruct (WriteFileLeaves env ClientsJson)|].
  destruct (WriteFileErr env ServerJson);
    [by destruct (WriteFileLeaves env ServerJson)|].
  unfold applyServerConfig, WriteFile.
  destruct (WriteFileErr env IfaceConf);
    [by destruct (WriteFileLeaves env IfaceConf)|].
  by destruct (SetconfErr env).
Qed.

Lemma issuance_store (a : App) (env : Env) (body : decoded linkReq)
    (id : string) (w : World) :
  tokens_json (snd (createOneTimeLink a env body id w)) = tokens_json w \/
  (exists ts t, loadTokens w = inr ts /\
     tokens_json (snd (createOneTimeLink a env body id w))
     = Stored (ts ++ [t])) \/
  (~ tokenFileWhole env /\
   tokens_json (snd (createOneTimeLink a env body id w)) = cutJSON).
Proof.
  unfold createOneTimeLink. destruct (Decode _ body) as [q e].
  destruct (loadClients w) as [?|cs]; [by left|].
  destruct (hasClient cs id); cbn [negb]; [|by left].
  destruct (loadTokens w) as [?|ts] eqn:Hts; [by left|].
  unfold saveTokens, WriteFile, tokenFileWhole.
  destruct (WriteFileErr env TokensJson) as [err|].
  - destruct (WriteFileLeaves env TokensJson) as [|n|] eqn:Hleaves.
    + by left.
    + right. right. split; [|reflexivity].
      intros [?|Hno]; [discriminate | by apply (Hno n)].
    + right. left. by eexists ts, _.
  - right. left. by eexists ts, _.
Qed.

Lemma redemption_store (a : App) (env : Env) (method urlPath : string)
    (w : World) :
  tokens_json (snd (handleDownloadToken a env method urlPath w))
  = tokens_json w \/
  (exists ts i t, loadTokens w = inr ts /\ ts !! i = Some t /\
     tokens_json (snd (handleDownloadToken a env method urlPath w))
     = Stored (<[i := set_Used true t]> ts)) \/
  (~ tokenFileWhole env /\
   tokens_json (snd (handleDownloadToken a env method urlPath w)) = cutJSON).
Proof.
  unfold handleDownloadToken.
  destruct (negb _); [by left|].
  destruct (String.eqb _ ""); [by left|].
  destruct (loadTokens w) as [?|ts] eqn:Hts; [by left|].
  destruct (_ <? 0); [by left|].
  destruct (ts !! _) as [t|] eqn:Hl; [|by left].
  destruct (Used t); [by left|].
  destruct (After _ _); [by left|].
  unfold saveTokens, WriteFile, tokenFileWhole.
  destruct (WriteFileErr env TokensJson) as [err|].
  - destruct (WriteFileLeaves env TokensJson) as [|n|] eqn:Hleaves.
    + by left.
    + right. right. split; [|reflexivity].
      intros [?|Hno]; [discriminate | by apply (Hno n)].
    + right. left. eexists ts, _, t.
      split; [reflexivity|]. by split.
  - right. left. eexists ts, _, t. split; [reflexivity|]. split; [exact Hl|].
    destruct (findClientAndState _ _) as [?|[c st]]; [reflexivity|].
    by destruct (expired _ c).
Qed.

Lemma tokensKeptIn_appended (w w' : World) (ts : list dlToken)
    (t : dlToken) :
  loadTokens w = inr ts -> tokens_json w' = Stored (ts ++ [t]) ->
  tokensKeptIn w w'.
Proof.
  intros Hts H ts0 Hts0. rewrite Hts in Hts0. injection Hts0 as <-.
  exists (ts ++ [t]). unfold loadTokens. rewrite H.
  split; [reflexivity|]. intros i t0 Hi. exists t0.
  split; [by apply lookup_app_l_Some | by repeat split].
Qed.

Lemma tokensKeptIn_marked (w w' : World) (ts : list dlToken) (i : nat)
    (t : dlToken) :
  loadTokens w = inr ts -> ts !! i = Some t ->
  tokens_json w' = Stored (<[i := set_Used true t]> ts) ->
  tokensKeptIn w w'.
Proof.
  intros Hts Hl H ts0 Hts0. rewrite Hts in Hts0. injection Hts0 as <-.
  exists (<[i := set_Used true t]> ts). unfold loadTokens. rewrite H.
  split; [reflexivity|]. intros j t0 Hj.
  destruct (decide (i = j)) as [->|Hne].
  - exists (set_Used true t). rewrite Hl in Hj. injection Hj as <-.
    split; [|by repeat split].
    apply list_lookup_insert_eq. by eapply lookup_lt_Some.
  - exists t0. rewrite list_lookup_insert_ne by done. by repeat split.
Qed.

(** X21: no request takes a token back.  If the token list is readable
    before a create, a delete, a link issuance or a redemption, it is
    readable afterwards and still holds every token at its place with the
    same value, client and expiry, a used flag that was set staying set;
    the one exception is an issuance or a redemption whose write of the
    token list fails after the file was emptied.  Then the token file is
    cut short, and from then on every redemption is answered 500. *)
Theorem tokens_are_kept (a : App) (env : Env) (w : World) :
  (forall body, tokensKeptIn w (snd (createClient a env body w))) /\
  (forall id, tokensKeptIn w (snd (deleteClient a env id w))) /\
  (forall body id,
     let w' := snd (createOneTimeLink a env body id w) in
     (tokenFileWhole env -> tokensKeptIn w w') /\
     (tokensKeptIn w w' \/ tokens_json w' = cutJSON)) /\
  (forall method urlPath,
     let w' := snd (handleDownloadToken a env method urlPath w) in
     (tokenFileWhole env -> tokensKeptIn w w') /\
     (tokensKeptIn w w' \/ tokens_json w' = cutJSON)) /\
  (forall (w' : World) (a' : App) (env' : Env) (urlPath : string),
     tokens_json w' = cutJSON -> requestedToken urlPath <> "" ->
     handleDownloadToken a' env' "GET" urlPath w'
     = (http_Error "unexpected end of JSON input" 500, w')).
Proof.
  split; [|split; [|split; [|split]]].
  - intros body. apply tokensKeptIn_same_file, createClient_tokens.
  - intros id. apply tokensKeptIn_same_file.
    by destruct (deleteClient_store a env id w) as (_ & ? & _).
  - intros body id. cbn zeta.
    destruct (issuance_store a env body id w)
      as [H|[(ts & t & Hts & H)|[Hcut H]]].
    + split; [intros _|left]; by apply tokensKeptIn_same_file.
    + split; [intros _|left]; by apply (tokensKeptIn_appended w _ ts t).
    + split; [intros Hwhole; by destruct Hcut | by right].
  - intros method urlPath. cbn zeta.
    destruct (redemption_store a env method urlPath w)
      as [H|[(ts & i & t & Hts & Hl & H)|[Hcut H]]].
    + split; [intros _|left]; by apply tokensKeptIn_same_file.
    + split; [intros _|left]; by apply (tokensKeptIn_marked w _ ts i t).
    + split; [intros Hwhole; by destruct Hcut | by right].
  - intros w' a' env' urlPath Hcut Hne. unfold handleDownloadToken.
    cbn [String.eqb Ascii.eqb Bool.eqb negb]. fold (requestedToken urlPath).
    apply String.eqb_neq in Hne. rewrite Hne.
    unfold loadTokens. by rewrite Hcut.
Qed.

Lemma tokens_are_kept_witness :
  tokensKeptIn w1 (snd (handleDownloadToken app0 env0 "GET" "/dl/tok-a" w1))
  /\
  handleDownloadToken app0 env0 "GET" "/dl/tok-a"
    (snd (handleDownloadToken app0 env_disk_full "GET" "/dl/tok-b" w1))
  = (http_Error "unexpected end of JSON input" 500,
     snd (handleDownloadToken app0 env_disk_full "GET" "/dl/tok-b" w1)).
Proof.
  destruct (tokens_are_kept app0 env0 w1) as (_ & _ & _ & Hredeem & Hlost).
  split.
  - destruct (Hredeem "GET" "/dl/tok-a") as [Hkept _].
    apply Hkept. left. reflexivity.
  - apply Hlost; [vm_compute; reflexivity | vm_compute; discriminate].
Defined.




End TokenHistory.
